(** * KML/KMZ to ESRI Shapefile conversion: embedding and properties

    A shallow embedding of [KML-KMZ-2-SHAPE-FILE/kml-kmz-2-shp.py] (class
    [SimpleKMLToShapefile]) together with the parts of the Python runtime it
    calls, followed by the properties of the extraction and of the four
    binary writers.

    Conventions.
    - A Python [str] is the list of its Unicode code points ([N]).
    - A Python [bytes] value is a list of 8-bit integers ([Z], each in 0..255).
    - A Python [float] is an IEEE-754 binary64 value, [spec_float].
    - A Python [int] is a [Z]; [len] results are [nat].
    - A raised exception is the [Raise] case of [outcome]. *)

From Stdlib Require Import ZArith NArith List Bool Lia String Ascii DecimalString.
From Stdlib Require Import Floats.SpecFloat.
Import ListNotations.
Local Open Scope Z_scope.

#[local] Set Warnings "-register-all".

(* ===================================================================== *)
(** ** Python strings *)
(* ===================================================================== *)

Module Str.

Definition str := list N.

(** A literal of the source, read as a list of code points. *)
Definition lit (s : string) : str := map N_of_ascii (list_ascii_of_string s).

Fixpoint eqb (a b : str) : bool :=
  match a, b with
  | [], [] => true
  | x :: a', y :: b' => N.eqb x y && eqb a' b'
  | _, _ => false
  end.

(** [s.startswith(p)] *)
Fixpoint startswith (s p : str) : bool :=
  match p, s with
  | [], _ => true
  | x :: p', y :: s' => N.eqb x y && startswith s' p'
  | _ :: _, [] => false
  end.

(** [s.endswith(p)] *)
Definition endswith (s p : str) : bool := startswith (rev s) (rev p).

(** [needle in s] *)
Fixpoint contains (needle s : str) : bool :=
  startswith s needle ||
  match s with
  | [] => false
  | _ :: s' => contains needle s'
  end.

(** [str.isspace] on one code point: the characters removed by [strip()]
    and separating the fields of [split()]. *)
Definition isspace (c : N) : bool :=
  existsb (N.eqb c)
    [9; 10; 11; 12; 13; 28; 29; 30; 31; 32; 133; 160; 5760;
     8192; 8193; 8194; 8195; 8196; 8197; 8198; 8199; 8200; 8201; 8202;
     8232; 8233; 8239; 8287; 12288]%N.

Fixpoint lstrip (s : str) : str :=
  match s with
  | c :: s' => if isspace c then lstrip s' else s
  | [] => []
  end.

Definition rstrip (s : str) : str := rev (lstrip (rev s)).

(** [s.strip()] *)
Definition strip (s : str) : str := rstrip (lstrip s).

(** [s.split()]: maximal runs of non-space characters. [cur] holds the
    current run, reversed. *)
Fixpoint split_ws_from (cur : str) (s : str) : list str :=
  match s with
  | [] => match cur with [] => [] | _ => [rev cur] end
  | c :: s' =>
      if isspace c
      then match cur with
           | [] => split_ws_from [] s'
           | _ => rev cur :: split_ws_from [] s'
           end
      else split_ws_from (c :: cur) s'
  end.

Definition split_ws (s : str) : list str := split_ws_from [] s.

(** [s.split(sep)] for a non-empty separator: every occurrence cuts, empty
    fields are kept. [skip] counts the characters of a separator that was
    just matched and are still to be passed over. *)
Fixpoint split_from (sep : str) (skip : nat) (cur : str) (s : str) : list str :=
  match s with
  | [] => [rev cur]
  | c :: s' =>
      match skip with
      | S k => split_from sep k cur s'
      | O =>
          if startswith s sep
          then rev cur :: split_from sep (Nat.pred (List.length sep)) [] s'
          else split_from sep O (c :: cur) s'
      end
  end.

Definition split (s sep : str) : list str := split_from sep O [] s.

(** [s.replace(old, new)] for a non-empty [old]: non-overlapping
    occurrences, left to right. *)
Fixpoint replace_from (old new : str) (skip : nat) (s : str) : str :=
  match s with
  | [] => []
  | c :: s' =>
      match skip with
      | S k => replace_from old new k s'
      | O =>
          if startswith s old
          then new ++ replace_from old new (Nat.pred (List.length old)) s'
          else c :: replace_from old new O s'
      end
  end.

Definition replace (s old new : str) : str := replace_from old new O s.

(** [s[:n]] *)
Definition slice_to (n : nat) (s : str) : str := firstn n s.

(** [s.ljust(width, fill)] *)
Definition ljust (s : str) (width : nat) (fill : N) : str :=
  s ++ repeat fill (width - List.length s).

(** [str(n)] for a non-negative integer, as used by the f-string. *)
Definition of_nat (n : nat) : str := lit (NilZero.string_of_uint (Nat.to_uint n)).

(** A truthy string is a non-empty one. *)
Definition truthy (s : str) : bool :=
  match s with [] => false | _ => true end.

(** [c.lower()] restricted to ASCII letters. *)
Definition ascii_lower (s : str) : str :=
  map (fun c => if (65 <=? c)%N && (c <=? 90)%N then (c + 32)%N else c) s.

End Str.

(* ===================================================================== *)
(** ** Exceptions *)
(* ===================================================================== *)

Inductive exn :=
  | StructError            (* struct.error: value out of range for the format *)
  | ValueError             (* min() or max() of an empty sequence *)
  | UnicodeDecodeError
  | FileNotFoundError
  | BadZipFile
  | IsADirectoryError      (* a directory where a file is opened *)
  | NotADirectoryError     (* a regular file where a directory is needed *)
  | FileExistsError
  | OSError (errno : Z)    (* any other refusal of the operating system *)
  | Exception (msg : Str.str).

Inductive outcome (A : Type) :=
  | Ok (a : A)
  | Raise (e : exn).

Arguments Ok {A} a.
Arguments Raise {A} e.

(* ===================================================================== *)
(** ** Python floats (IEEE-754 binary64) *)
(* ===================================================================== *)

Module Float.

Definition float := spec_float.

Definition prec := 53.
Definition emax := 1024.

(** [float(n)] for an integer literal of the source. *)
Definition of_int (n : Z) : float := binary_normalize prec emax n 0 false.

Definition leb (x y : float) : bool := SFleb x y.
Definition ltb (x y : float) : bool := SFltb x y.
Definition eqb (x y : float) : bool := SFeqb x y.

(** The quotient [m / d], rounded to nearest even. *)
Definition round_ratio (neg : bool) (m d : positive) : float :=
  let '(q, e, l) := SFdiv_core_binary prec emax (Zpos m) 0 (Zpos d) 0 in
  binary_round_aux prec emax neg q e l.

(** The decimal [(-1)^neg * M * 10^E], correctly rounded. *)
Definition of_decimal (neg : bool) (M E : Z) : float :=
  match M with
  | Zpos m =>
      if 0 <=? E
      then binary_normalize prec emax (if neg then - (M * 10 ^ E) else M * 10 ^ E) 0 neg
      else round_ratio neg m (Z.to_pos (10 ^ (- E)))
  | _ => S754_zero neg
  end.

(** *** [float(s)] on ASCII text

    The grammar accepted by the builtin:
    [[sign] (number [exponent] | "inf" | "infinity" | "nan")] between
    optional white space, where digits may be separated by single
    underscores. Digits outside ASCII, which the builtin also accepts, are
    not recognised here. *)

Definition is_digit (c : N) : bool := ((48 <=? c) && (c <=? 57))%N.

Definition digit_value (c : N) : Z := Z.of_N c - 48.

(** The rest of a digit run, after its first digit. *)
Fixpoint digits_rest (s : Str.str) : list Z * Str.str :=
  match s with
  | c :: s' =>
      if is_digit c
      then let (ds, r) := digits_rest s' in (digit_value c :: ds, r)
      else if (c =? 95)%N
      then match s' with
           | d :: s'' =>
               if is_digit d
               then let (ds, r) := digits_rest s'' in (digit_value d :: ds, r)
               else ([], s)
           | [] => ([], s)
           end
      else ([], s)
  | [] => ([], [])
  end.

Definition digitpart (s : Str.str) : option (list Z * Str.str) :=
  match s with
  | c :: s' =>
      if is_digit c
      then let (ds, r) := digits_rest s' in Some (digit_value c :: ds, r)
      else None
  | [] => None
  end.

(** [number ::= [digitpart] "." digitpart | digitpart ["."]]: the integer
    digits, the fraction digits and what follows. *)
Definition number (s : Str.str) : option (list Z * list Z * Str.str) :=
  match digitpart s with
  | Some (ip, r) =>
      match r with
      | 46%N :: r' =>
          match digitpart r' with
          | Some (fp, r'') => Some (ip, fp, r'')
          | None => Some (ip, [], r')
          end
      | _ => Some (ip, [], r)
      end
  | None =>
      match s with
      | 46%N :: r' =>
          match digitpart r' with
          | Some (fp, r'') => Some ([], fp, r'')
          | None => None
          end
      | _ => None
      end
  end.

Definition sign (s : Str.str) : bool * Str.str :=
  match s with
  | 45%N :: s' => (true, s')
  | 43%N :: s' => (false, s')
  | _ => (false, s)
  end.

Definition digits_to_Z (ds : list Z) : Z := fold_left (fun acc d => 10 * acc + d) ds 0.

(** [exponent ::= ("e" | "E") [sign] digitpart], up to the end of the text;
    an absent exponent is 0. *)
Definition exponent (s : Str.str) : option Z :=
  match s with
  | [] => Some 0
  | c :: s' =>
      if ((c =? 101) || (c =? 69))%N
      then let (neg, s'') := sign s' in
           match digitpart s'' with
           | Some (ds, []) => Some (if neg then - digits_to_Z ds else digits_to_Z ds)
           | _ => None
           end
      else None
  end.

Definition of_str (s : Str.str) : option float :=
  let (neg, body) := sign (Str.strip s) in
  let word := Str.ascii_lower body in
  if Str.eqb word (Str.lit "inf") || Str.eqb word (Str.lit "infinity")
  then Some (S754_infinity neg)
  else if Str.eqb word (Str.lit "nan")
  then Some S754_nan
  else
    match number body with
    | Some (ip, fp, r) =>
        match exponent r with
        | Some e => Some (of_decimal neg (digits_to_Z (ip ++ fp)) (e - Z.of_nat (List.length fp)))
        | None => None
        end
    | None => None
    end.

(** *** The binary64 bit pattern, as written by [struct.pack('<d', x)] *)

Definition bits (x : float) : Z :=
  match x with
  | S754_zero s => if s then 2 ^ 63 else 0
  | S754_infinity s => (if s then 2 ^ 63 else 0) + 2047 * 2 ^ 52
  | S754_nan => 2047 * 2 ^ 52 + 2 ^ 51
  | S754_finite s m e =>
      (if s then 2 ^ 63 else 0) +
      (if 2 ^ 52 <=? Zpos m
       then (e + 1075) * 2 ^ 52 + (Zpos m - 2 ^ 52)
       else Zpos m)
  end.

Definition of_bits (b : Z) : float :=
  let s := 2 ^ 63 <=? b in
  let ex := (b / 2 ^ 52) mod 2048 in
  let fr := b mod 2 ^ 52 in
  if ex =? 2047
  then (if fr =? 0 then S754_infinity s else S754_nan)
  else if ex =? 0
  then match fr with
       | Zpos m => S754_finite s m (-1074)
       | _ => S754_zero s
       end
  else match fr + 2 ^ 52 with
       | Zpos m => S754_finite s m (ex - 1075)
       | _ => S754_nan
       end.

(** [min(xs)] and [max(xs)]: the first extremal element; an empty
    sequence raises. *)
Definition min (xs : list float) : outcome float :=
  match xs with
  | [] => Raise ValueError
  | x :: xs' => Ok (fold_left (fun m y => if ltb y m then y else m) xs' x)
  end.

Definition max (xs : list float) : outcome float :=
  match xs with
  | [] => Raise ValueError
  | x :: xs' => Ok (fold_left (fun m y => if ltb m y then y else m) xs' x)
  end.

End Float.

(* ===================================================================== *)
(** ** [struct.pack] and the text codecs *)
(* ===================================================================== *)

Module Struct.

Definition bytes := list Z.

(** The [n] low bytes of [v], least significant first. *)
Fixpoint le_bytes (n : nat) (v : Z) : bytes :=
  match n with
  | O => []
  | S k => v mod 256 :: le_bytes k (v / 256)
  end.

Definition be_bytes (n : nat) (v : Z) : bytes := rev (le_bytes n v).

(** The unsigned value of a little-endian byte string. *)
Fixpoint le_value (b : bytes) : Z :=
  match b with
  | [] => 0
  | x :: b' => x + 256 * le_value b'
  end.

Definition be_value (b : bytes) : Z := le_value (rev b).

Definition in_range (n : nat) (v : Z) : bool := (0 <=? v) && (v <? 256 ^ Z.of_nat n).

(** ['>I'] *)
Definition pack_I_be (v : Z) : outcome bytes :=
  if in_range 4 v then Ok (be_bytes 4 v) else Raise StructError.

(** ['<I'] *)
Definition pack_I_le (v : Z) : outcome bytes :=
  if in_range 4 v then Ok (le_bytes 4 v) else Raise StructError.

(** ['<H'] *)
Definition pack_H_le (v : Z) : outcome bytes :=
  if in_range 2 v then Ok (le_bytes 2 v) else Raise StructError.

(** ['<B'] *)
Definition pack_B (v : Z) : outcome bytes :=
  if in_range 1 v then Ok [v] else Raise StructError.

(** ['<d'] *)
Definition pack_d_le (x : Float.float) : bytes := le_bytes 8 (Float.bits x).

Definition unpack_d_le (b : bytes) : Float.float := Float.of_bits (le_value b).

(** [b'\x00' * n] *)
Definition zeros (n : nat) : bytes := repeat 0 n.

(** [b.ljust(width, b'\x00')] *)
Definition ljust0 (b : bytes) (width : nat) : bytes := b ++ zeros (width - List.length b).

(** The bytes of an ASCII literal of the source. *)
Definition blit (s : string) : bytes := map (fun c => Z.of_N (N_of_ascii c)) (list_ascii_of_string s).

End Struct.

Module Codec.

(** [c.encode('utf-8', errors='ignore')] for one code point: a surrogate
    cannot be encoded and is left out. *)
Definition utf8_encode_char (c : N) : Struct.bytes :=
  let z := Z.of_N c in
  if z <? 128 then [z]
  else if z <? 2048 then [192 + z / 64; 128 + z mod 64]
  else if (55296 <=? z) && (z <=? 57343) then []
  else if z <? 65536 then [224 + z / 4096; 128 + (z / 64) mod 64; 128 + z mod 64]
  else [240 + z / 262144; 128 + (z / 4096) mod 64; 128 + (z / 64) mod 64; 128 + z mod 64].

Definition utf8_encode_ignore (s : Str.str) : Struct.bytes := flat_map utf8_encode_char s.

Definition is_cont (b : Z) : bool := (128 <=? b) && (b <=? 191).

Definition cont_bits (b : Z) : Z := b mod 64.

(** Strict UTF-8 decoding: [None] stands for [UnicodeDecodeError]. Overlong
    forms, surrogates and values above U+10FFFF are rejected. *)
Fixpoint utf8_decode (b : Struct.bytes) : option Str.str :=
  match b with
  | [] => Some []
  | b0 :: r =>
      if (0 <=? b0) && (b0 <? 128) then
        option_map (cons (Z.to_N b0)) (utf8_decode r)
      else if (194 <=? b0) && (b0 <=? 223) then
        match r with
        | b1 :: r1 =>
            if is_cont b1
            then option_map (cons (Z.to_N ((b0 - 192) * 64 + cont_bits b1))) (utf8_decode r1)
            else None
        | _ => None
        end
      else if (224 <=? b0) && (b0 <=? 239) then
        match r with
        | b1 :: b2 :: r2 =>
            if is_cont b1 && is_cont b2
               && (negb (b0 =? 224) || (160 <=? b1))
               && (negb (b0 =? 237) || (b1 <=? 159))
            then option_map
                   (cons (Z.to_N ((b0 - 224) * 4096 + cont_bits b1 * 64 + cont_bits b2)))
                   (utf8_decode r2)
            else None
        | _ => None
        end
      else if (240 <=? b0) && (b0 <=? 244) then
        match r with
        | b1 :: b2 :: b3 :: r3 =>
            if is_cont b1 && is_cont b2 && is_cont b3
               && (negb (b0 =? 240) || (144 <=? b1))
               && (negb (b0 =? 244) || (b1 <=? 143))
            then option_map
                   (cons (Z.to_N ((b0 - 240) * 262144 + cont_bits b1 * 4096
                                  + cont_bits b2 * 64 + cont_bits b3)))
                   (utf8_decode r3)
            else None
        | _ => None
        end
      else None
  end.

(** Latin-1 decodes every byte string: one code point per byte. *)
Definition latin1_decode (b : Struct.bytes) : Str.str := map Z.to_N b.

(** Text-mode reading translates ["\r\n"] and a lone ["\r"] to ["\n"]. *)
Definition universal_newlines (s : Str.str) : Str.str :=
  Str.replace (Str.replace s [13; 10]%N [10]%N) [13]%N [10]%N.

End Codec.

(* ===================================================================== *)
(** ** [xml.etree.ElementTree] *)
(* ===================================================================== *)

Module ET.

(** An element as the parser builds it: its tag in Clark notation
    ([{uri}local]), its text ([None] when there is none) and its child
    elements in document order. *)
Inductive element :=
  | Element (tag : Str.str) (text : option Str.str) (children : list element).

Definition tag (e : element) : Str.str := let 'Element t _ _ := e in t.
Definition text (e : element) : option Str.str := let 'Element _ x _ := e in x.
Definition children (e : element) : list element := let 'Element _ _ cs := e in cs.

(** [e.iter()]: the element itself, then its descendants, in document
    order. *)
Fixpoint iter (e : element) : list element :=
  match e with
  | Element _ _ cs => e :: flat_map iter cs
  end.

(** The parent map of the subtree below [p]: every proper descendant with
    its parent, in document order. *)
Fixpoint parent_pairs (p : element) : list (element * element) :=
  match p with
  | Element _ _ cs => flat_map (fun c => (c, p) :: parent_pairs c) cs
  end.

(** [elem.find('.//' + t + '/..')]: the parent of the first proper
    descendant of [elem] whose tag is [t]. The path is read this way for
    every tag the parser produces, a local name with or without a
    namespace in braces. *)
Definition find_parent_of (elem : element) (t : Str.str) : option element :=
  match find (fun cp => Str.eqb (tag (fst cp)) t) (parent_pairs elem) with
  | Some (_, p) => Some p
  | None => None
  end.

(** [e.text] where a missing text reads as the empty string; both are
    falsy. *)
Definition text_or_empty (e : element) : Str.str :=
  match text e with
  | Some s => s
  | None => []
  end.

End ET.

(* ===================================================================== *)
(** ** The Python runtime the converter runs on *)
(* ===================================================================== *)

(** Builtins and library calls whose definitions are not part of the
    repository. [None] stands for the exception the call raises. *)
Record runtime := {
  (** [float(s)]; [None] is [ValueError] *)
  py_float : Str.str -> option Float.float;
  (** [s.lower()] *)
  py_lower : Str.str -> Str.str;
  (** [ET.fromstring(s)]; [None] is a parse error *)
  fromstring : Str.str -> option ET.element;
  (** [zipfile.ZipFile(path).extractall(d); os.listdir(d)] on the bytes of
      an archive: the names in the directory, files and directories
      alike, each with what [open(name, 'r')] gives: the bytes of the file,
      or the exception it raises ([IsADirectoryError] for a directory);
      [None] is [BadZipFile] *)
  zip_listdir : Struct.bytes -> option (list (Str.str * outcome Struct.bytes));
  (** [os.path.dirname] *)
  path_dirname : Str.str -> Str.str;
  (** [os.path.splitext(p)[0]] *)
  path_splitext_root : Str.str -> Str.str
}.

(** The file system and what else a run could observe. *)
Record world := {
  files : Str.str -> option Struct.bytes;
  dirs : list Str.str;
  (** the paths that the operating system refuses to create or to open
      for writing although the directory structure would allow it
      (permissions, a read-only file system, ...), with the error number *)
  refused : Str.str -> option Z;
  (** the system clock; the converter has no access to it *)
  clock : Z
}.

Definition set_file (w : world) (path : Str.str) (content : Struct.bytes) : world :=
  {| files := fun p => if Str.eqb p path then Some content else files w p;
     dirs := dirs w;
     refused := refused w;
     clock := clock w |}.

Definition is_dir (w : world) (path : Str.str) : bool :=
  existsb (Str.eqb path) (dirs w).

Definition is_file (w : world) (path : Str.str) : bool :=
  negb (is_dir w path) && match files w path with Some _ => true | None => false end.

(** [os.path.exists] *)
Definition path_exists (w : world) (path : Str.str) : bool :=
  existsb (Str.eqb path) (dirs w) ||
  match files w path with Some _ => true | None => false end.

(** Whether one of the directories above [path] is a regular file. *)
Fixpoint below_a_file (rt : runtime) (fuel : nat) (w : world) (path : Str.str) : bool :=
  match fuel with
  | O => false
  | S k =>
      let parent := path_dirname rt path in
      Str.truthy parent && negb (Str.eqb parent path)
      && (is_file w parent || below_a_file rt k w parent)
  end.

(** What the operating system answers when [path] is to be created:
    [None] when it lets it happen. *)
Definition create_error (rt : runtime) (w : world) (path : Str.str) : option exn :=
  let parent := path_dirname rt path in
  if below_a_file rt (List.length path) w path then Some NotADirectoryError
  else if Str.truthy parent && negb (is_dir w parent) then Some FileNotFoundError
  else match refused w path with
       | Some errno => Some (OSError errno)
       | None => None
       end.

(** [open(path, 'wb')]: the exception it raises, if it does. *)
Definition open_error (rt : runtime) (w : world) (path : Str.str) : option exn :=
  if is_dir w path then Some IsADirectoryError else create_error rt w path.

(** [os.mkdir] *)
Definition mkdir (rt : runtime) (w : world) (path : Str.str) : world * outcome unit :=
  if path_exists w path then (w, Raise FileExistsError)
  else match create_error rt w path with
       | Some e => (w, Raise e)
       | None =>
           ({| files := files w; dirs := path :: dirs w;
               refused := refused w; clock := clock w |}, Ok tt)
       end.

(** [os.makedirs(name)] for a name as [os.path.dirname] gives it, without
    a separator at its end: the missing directories above [name] are made
    first, outermost first. *)
Fixpoint makedirs (rt : runtime) (fuel : nat) (w : world) (name : Str.str)
  : world * outcome unit :=
  match fuel with
  | O => mkdir rt w name
  | S k =>
      let head := path_dirname rt name in
      if Str.truthy head && negb (Str.eqb head name) && negb (path_exists w head)
      then match makedirs rt k w head with
           | (w', Ok _) | (w', Raise FileExistsError) => mkdir rt w' name
           | (w', Raise e) => (w', Raise e)
           end
      else mkdir rt w name
  end.

(** [open(path, 'r', encoding='utf-8').read()] *)
Definition read_text_utf8 (w : world) (path : Str.str) : outcome Str.str :=
  match files w path with
  | None => Raise (if is_dir w path then IsADirectoryError else FileNotFoundError)
  | Some b =>
      match Codec.utf8_decode b with
      | None => Raise UnicodeDecodeError
      | Some s => Ok (Codec.universal_newlines s)
      end
  end.

(* ===================================================================== *)
(** ** Writing to an open binary file *)
(* ===================================================================== *)

(** A computation on a file opened with ['wb']: it extends the bytes
    written so far and may raise; what was written before the exception
    stays in the file. *)
Definition writer (A : Type) := Struct.bytes -> Struct.bytes * outcome A.

Definition w_ret {A} (a : A) : writer A := fun buf => (buf, Ok a).

Definition w_bind {A B} (c : writer A) (k : A -> writer B) : writer B :=
  fun buf =>
    match c buf with
    | (buf', Ok a) => k a buf'
    | (buf', Raise e) => (buf', Raise e)
    end.

(** Evaluate an expression that may raise. *)
Definition w_eval {A} (o : outcome A) : writer A := fun buf => (buf, o).

(** [f.write(b)] *)
Definition f_write (b : Struct.bytes) : writer unit := fun buf => (buf ++ b, Ok tt).

(** [f.write(struct.pack(...))] *)
Definition f_write_packed (o : outcome Struct.bytes) : writer unit :=
  w_bind (w_eval o) f_write.

Declare Scope writer_scope.
Delimit Scope writer_scope with writer.
Notation "x <- c ;; k" := (w_bind c (fun x => k))
  (at level 61, c at next level, right associativity) : writer_scope.
Notation "c ;; k" := (w_bind c (fun _ => k))
  (at level 61, right associativity) : writer_scope.

(** [for x in l: body(x)] *)
Fixpoint w_for {A} (l : list A) (body : A -> writer unit) : writer unit :=
  match l with
  | [] => w_ret tt
  | x :: l' => w_bind (body x) (fun _ => w_for l' body)
  end.

(** [enumerate(l)] *)
Definition enumerate {A} (l : list A) : list (nat * A) := combine (seq 0 (List.length l)) l.

(** [with open(filename, 'wb') as f: body]: when the file cannot be
    opened nothing is written; when it can, it holds what [body] wrote,
    also when [body] raises. *)
Definition with_open_wb (rt : runtime) (filename : Str.str) (body : writer unit) (w : world)
  : world * outcome unit :=
  match open_error rt w filename with
  | Some e => (w, Raise e)
  | None => let (buf, r) := body [] in (set_file w filename buf, r)
  end.

(* ===================================================================== *)
(** ** [class SimpleKMLToShapefile] *)
(* ===================================================================== *)

(** A vertex is the two-element list [[lon, lat]]. *)
Definition vertex := (Float.float * Float.float)%type.

(** [a == b] on two vertices. *)
Definition vertex_eqb (a b : vertex) : bool :=
  Float.eqb (fst a) (fst b) && Float.eqb (snd a) (snd b).

(** The attribute dictionary [{'name': ..., 'description': ...}]. *)
Record record := {
  name : Str.str;
  description : Str.str
}.

(** The instance attributes [self.shapes] and [self.records]. *)
Record converter := {
  shapes : list (list vertex);
  records : list record
}.

(** [__init__] *)
Definition init : converter := {| shapes := []; records := [] |}.

Section Converter.

Context (rt : runtime).

(** [-180 <= lon <= 180 and -90 <= lat <= 90] *)
Definition valid_lon_lat (lon lat : Float.float) : bool :=
  Float.leb (Float.of_int (-180)) lon && Float.leb lon (Float.of_int 180)
  && (Float.leb (Float.of_int (-90)) lat && Float.leb lat (Float.of_int 90)).

(** One turn of the loop over [parts]: the vertices it appends to
    [coords], none when the token is skipped. *)
Definition parse_part (part : Str.str) : list vertex :=
  let part := Str.strip part in
  if negb (Str.truthy part) || negb (Str.contains (Str.lit ",") part)
  then []
  else
    let coord_parts := Str.split part (Str.lit ",") in
    if (2 <=? List.length coord_parts)%nat
    then match py_float rt (nth 0 coord_parts []) with
         | None => []
         | Some lon =>
             match py_float rt (nth 1 coord_parts []) with
             | None => []
             | Some lat => if valid_lon_lat lon lat then [(lon, lat)] else []
             end
         end
    else [].

(** One turn of the loop over [lines]. *)
Definition parse_line (line : Str.str) : list vertex :=
  let line := Str.strip line in
  if negb (Str.truthy line)
  then []
  else
    let parts := Str.split (Str.replace line [9%N] [32%N]) [32%N] in
    flat_map parse_part parts.

Definition parse_coordinates (coord_text : Str.str) : list vertex :=
  if negb (Str.truthy coord_text)
  then []
  else
    let coord_text := Str.strip coord_text in
    let lines :=
      Str.split
        (Str.replace (Str.replace coord_text [13; 10]%N [10]%N) [13]%N [10]%N)
        [10%N] in
    flat_map parse_line lines.

(** The first element below [elem] whose tag contains [key] and whose
    text is not empty gives its text, cut to [limit] characters; the
    empty string when there is none. *)
Definition first_text (key : Str.str) (limit : nat) (elem : ET.element) : Str.str :=
  match find (fun child => Str.contains key (ET.tag child)
                           && Str.truthy (ET.text_or_empty child))
             (ET.iter elem) with
  | Some child => Str.slice_to limit (ET.text_or_empty child)
  | None => []
  end.

(** The fallback taken when no parent is found: the text spans several
    lines or has more than ten fields. *)
Definition looks_like_ring (child : ET.element) : bool :=
  let coord_text := Str.strip (ET.text_or_empty child) in
  Str.contains [10%N] coord_text || (10 <? List.length (Str.split_ws coord_text))%nat.

(** [for _ in range(fuel)]: the walk towards a tag that contains
    ["Polygon"], starting with [parent]. *)
Fixpoint polygon_walk (fuel : nat) (elem child parent : ET.element) : bool :=
  match fuel with
  | O => false
  | S k =>
      if Str.contains (Str.lit "Polygon") (ET.tag parent)
      then true
      else match ET.find_parent_of elem (ET.tag parent) with
           | None => looks_like_ring child
           | Some parent' => polygon_walk k elem child parent'
           end
  end.

Definition is_polygon (elem child : ET.element) : bool :=
  polygon_walk 5 elem child child.

(** The coordinates taken for a placemark: those of the first element
    with a coordinates tag, a text and a polygon around it. *)
Definition placemark_coordinates (elem : ET.element) : list vertex :=
  match find (fun child => Str.contains (Str.lit "coordinates") (ET.tag child)
                           && Str.truthy (ET.text_or_empty child)
                           && is_polygon elem child)
             (ET.iter elem) with
  | Some child => parse_coordinates (ET.text_or_empty child)
  | None => []
  end.

(** [if coordinates[0] != coordinates[-1]: coordinates.append(coordinates[0])] *)
Definition close_ring (coordinates : list vertex) : list vertex :=
  match coordinates with
  | [] => []
  | first :: _ =>
      if negb (vertex_eqb first (last coordinates first))
      then coordinates ++ [first]
      else coordinates
  end.

(** The body of the loop over [root.iter()]. *)
Definition visit (self : converter) (elem : ET.element) : converter :=
  if Str.contains (Str.lit "Placemark") (ET.tag elem)
  then
    let name := first_text (Str.lit "name") 50 elem in
    let description := first_text (Str.lit "description") 100 elem in
    let coordinates := placemark_coordinates elem in
    if (3 <=? List.length coordinates)%nat
    then
      let coordinates := close_ring coordinates in
      let shapes' := shapes self ++ [coordinates] in
      {| shapes := shapes';
         records := records self ++
           [{| name := if Str.truthy name then name
                       else Str.lit "Polygon_" ++ Str.of_nat (List.length shapes' + 1);
               description := description |}] |}
    else self
  else self.

Definition parse_kml (self : converter) (kml_content : Str.str) : converter * bool :=
  match fromstring rt kml_content with
  | None => (self, false)
  | Some root =>
      let self' := fold_left visit (ET.iter root) self in
      (self', (0 <? List.length (shapes self'))%nat)
  end.

(** *** The writers *)

Local Open Scope writer_scope.

(** The bounding box of a list of vertices: min x, min y, max x, max y. *)
Definition bounding_box (coords : list vertex)
  : outcome (Float.float * Float.float * Float.float * Float.float) :=
  match Float.min (map fst coords) with
  | Raise e => Raise e
  | Ok min_x =>
      match Float.min (map snd coords), Float.max (map fst coords),
            Float.max (map snd coords) with
      | Ok min_y, Ok max_x, Ok max_y => Ok (min_x, min_y, max_x, max_y)
      | _, _, _ => Raise ValueError
      end
  end.

(** The box written in the two file headers: zeros without shapes. *)
Definition header_box (shapes : list (list vertex))
  : outcome (Float.float * Float.float * Float.float * Float.float) :=
  match shapes with
  | [] => Ok (Float.of_int 0, Float.of_int 0, Float.of_int 0, Float.of_int 0)
  | _ => bounding_box (List.concat shapes)
  end.

Definition f_write_box (box : Float.float * Float.float * Float.float * Float.float)
  : writer unit :=
  let '(min_x, min_y, max_x, max_y) := box in
  f_write (Struct.pack_d_le min_x) ;;
  f_write (Struct.pack_d_le min_y) ;;
  f_write (Struct.pack_d_le max_x) ;;
  f_write (Struct.pack_d_le max_y).

(** [file_length] of [write_shp] after its loop. *)
Definition shp_file_length (shapes : list (list vertex)) : Z :=
  fold_left (fun file_length shape =>
               file_length + (4 + 44 + Z.of_nat (List.length shape) * 16))
            shapes 50.

(** One record of the geometry file. *)
Definition write_shp_record (i : nat) (shape : list vertex) : writer unit :=
  let record_length := 44 + Z.of_nat (List.length shape) * 16 in
  f_write_packed (Struct.pack_I_be (Z.of_nat i + 1)) ;;
  f_write_packed (Struct.pack_I_be (record_length / 2)) ;;
  f_write_packed (Struct.pack_I_le 5) ;;
  box <- w_eval (bounding_box shape) ;;
  f_write_box box ;;
  f_write_packed (Struct.pack_I_le 1) ;;
  f_write_packed (Struct.pack_I_le (Z.of_nat (List.length shape))) ;;
  f_write_packed (Struct.pack_I_le 0) ;;
  w_for shape (fun coord =>
    f_write (Struct.pack_d_le (fst coord)) ;;
    f_write (Struct.pack_d_le (snd coord))).

(** The 100-byte header of the geometry file. *)
Definition shp_header (self : converter) : writer unit :=
  f_write_packed (Struct.pack_I_be 9994) ;;
  f_write (Struct.zeros 20) ;;
  f_write_packed (Struct.pack_I_be (shp_file_length (shapes self))) ;;
  f_write_packed (Struct.pack_I_le 1000) ;;
  f_write_packed (Struct.pack_I_le 5) ;;
  box <- w_eval (header_box (shapes self)) ;;
  f_write_box box ;;
  f_write (Struct.pack_d_le (Float.of_int 0)) ;;
  f_write (Struct.pack_d_le (Float.of_int 0)) ;;
  f_write (Struct.pack_d_le (Float.of_int 0)) ;;
  f_write (Struct.pack_d_le (Float.of_int 0)).

(** [for i, shape in enumerate(...)]: the records, one after the other. *)
Definition shp_records (numbered : list (nat * list vertex)) : writer unit :=
  w_for numbered (fun '(i, shape) => write_shp_record i shape).

(** What [write_shp] writes to the open file. *)
Definition shp_contents (self : converter) : writer unit :=
  shp_header self ;;
  shp_records (enumerate (shapes self)).

(** The number of bytes in the file when the loop begins its turn for
    the shape of index [k] (counted from 0): where that record begins. *)
Definition shp_record_start (self : converter) (k : nat) : nat :=
  List.length
    (fst ((shp_header self ;; shp_records (firstn k (enumerate (shapes self)))) [])).

Definition write_shp (self : converter) (filename : Str.str) : world -> world * outcome unit :=
  with_open_wb rt filename (shp_contents self).

(** The loop over the index records, carrying [offset]. *)
Fixpoint write_shx_records (offset : Z) (shapes : list (list vertex)) : writer unit :=
  match shapes with
  | [] => w_ret tt
  | shape :: rest =>
      f_write_packed (Struct.pack_I_be offset) ;;
      let content_length := 44 + Z.of_nat (List.length shape) * 16 in
      f_write_packed (Struct.pack_I_be (content_length / 2)) ;;
      write_shx_records (offset + (4 + content_length)) rest
  end.

Definition shx_contents (self : converter) : writer unit :=
  f_write_packed (Struct.pack_I_be 9994) ;;
  f_write (Struct.zeros 20) ;;
  let file_length := 50 + Z.of_nat (List.length (shapes self)) * 4 in
  f_write_packed (Struct.pack_I_be file_length) ;;
  f_write_packed (Struct.pack_I_le 1000) ;;
  f_write_packed (Struct.pack_I_le 5) ;;
  box <- w_eval (header_box (shapes self)) ;;
  f_write_box box ;;
  f_write (Struct.zeros 32) ;;
  write_shx_records 50 (shapes self).

Definition write_shx (self : converter) (filename : Str.str) : world -> world * outcome unit :=
  with_open_wb rt filename (shx_contents self).

(** One row of the attribute table. *)
Definition dbf_row (r : record) : Struct.bytes :=
  Struct.blit " "
  ++ Codec.utf8_encode_ignore (Str.ljust (Str.slice_to 50 (name r)) 50 32%N)
  ++ Codec.utf8_encode_ignore (Str.ljust (Str.slice_to 100 (description r)) 100 32%N).

(** A 32-byte field descriptor. *)
Definition write_dbf_field (field : string) (width : Z) : writer unit :=
  f_write (Struct.ljust0 (Struct.blit field) 11) ;;
  f_write (Struct.blit "C") ;;
  f_write (Struct.zeros 4) ;;
  w <- w_eval (Struct.pack_B width) ;;
  d <- w_eval (Struct.pack_B 0) ;;
  f_write (w ++ d) ;;
  f_write (Struct.zeros 14).

Definition dbf_contents (self : converter) : writer unit :=
  f_write_packed (Struct.pack_B 3) ;;
  f_write [24; 1; 1] ;;
  f_write_packed (Struct.pack_I_le (Z.of_nat (List.length (records self)))) ;;
  f_write_packed (Struct.pack_H_le 193) ;;
  f_write_packed (Struct.pack_H_le 151) ;;
  f_write (Struct.zeros 20) ;;
  write_dbf_field "NAME" 50 ;;
  write_dbf_field "DESC" 100 ;;
  f_write [13] ;;
  w_for (records self) (fun record => f_write (dbf_row record)).

Definition write_dbf (self : converter) (filename : Str.str) : world -> world * outcome unit :=
  with_open_wb rt filename (dbf_contents self).

(** The double quote character of the descriptor. *)
Definition dq : string := String (ascii_of_nat 34) EmptyString.

Definition wgs84 : string :=
  ("GEOGCS[" ++ dq ++ "GCS_WGS_1984" ++ dq ++ ",DATUM[" ++ dq ++ "D_WGS_1984" ++ dq
   ++ ",SPHEROID[" ++ dq ++ "WGS_1984" ++ dq ++ ",6378137,298.257223563]],PRIMEM["
   ++ dq ++ "Greenwich" ++ dq ++ ",0],UNIT[" ++ dq ++ "Degree" ++ dq
   ++ ",0.017453292519943295]]")%string.

Definition write_prj (filename : Str.str) : world -> world * outcome unit :=
  with_open_wb rt filename (f_write (Struct.blit wgs84)).

(** *** [extract_kmz] and [convert] *)

(** The archive is unpacked into a fresh temporary directory, which the
    [finally] clause removes again: the file system is left as it was. *)
Definition extract_kmz (kmz_path : Str.str) (w : world) : outcome (option Str.str) :=
  match files w kmz_path with
  | None => Raise (if is_dir w kmz_path then IsADirectoryError else FileNotFoundError)
  | Some archive =>
      match zip_listdir rt archive with
      | None => Raise BadZipFile
      | Some entries =>
          match find (fun entry => Str.endswith (fst entry) (Str.lit ".kml")) entries with
          | Some (_, Ok content) =>
              match Codec.utf8_decode content with
              | None => Raise UnicodeDecodeError
              | Some s => Ok (Some (Codec.universal_newlines s))
              end
          | Some (_, Raise e) => Raise e
          | None => Ok None
          end
      end
  end.

(** The first step of [convert]: the text of the input file. *)
Definition read_input (input_file : Str.str) (w : world) : outcome Str.str :=
  if Str.endswith (py_lower rt input_file) (Str.lit ".kmz")
  then match extract_kmz input_file w with
       | Raise e => Raise e
       | Ok (Some (c :: s)) => Ok (c :: s)
       | Ok _ => Raise (Exception (Str.lit "Could not extract KML from KMZ file"))
       end
  else read_text_utf8 w input_file.

(** Statements that change the file system, one after the other; an
    exception ends the sequence. *)
Definition and_then (c : world -> world * outcome unit)
                    (k : world -> world * outcome unit) (w : world)
  : world * outcome unit :=
  match c w with
  | (w', Ok _) => k w'
  | (w', Raise e) => (w', Raise e)
  end.

Definition write_components (self : converter) (base_name : Str.str)
  : world -> world * outcome unit :=
  and_then (write_shp self (base_name ++ Str.lit ".shp"))
  (and_then (write_shx self (base_name ++ Str.lit ".shx"))
  (and_then (write_dbf self (base_name ++ Str.lit ".dbf"))
            (write_prj (base_name ++ Str.lit ".prj")))).

(** [if output_dir and not os.path.exists(output_dir):
    os.makedirs(output_dir)] *)
Definition make_output_dir (output_file : Str.str) (w : world) : world * outcome unit :=
  let output_dir := path_dirname rt output_file in
  if Str.truthy output_dir && negb (path_exists w output_dir)
  then makedirs rt (List.length output_dir) w output_dir
  else (w, Ok tt).

(** [convert]: the file system and the instance after the call, and the
    value returned or the exception raised. *)
Definition convert (self : converter) (input_file output_file : Str.str) (w : world)
  : world * converter * outcome Str.str :=
  match read_input input_file w with
  | Raise e => (w, self, Raise e)
  | Ok kml_content =>
      let (self', found) := parse_kml self kml_content in
      if negb found
      then (w, self', Raise (Exception (Str.lit "No polygons found in KML file")))
      else
        match make_output_dir output_file w with
        | (w1, Raise e) => (w1, self', Raise e)
        | (w1, Ok _) =>
            let base_name := path_splitext_root rt output_file in
            match write_components self' base_name w1 with
            | (w2, Ok _) => (w2, self', Ok (base_name ++ Str.lit ".shp"))
            | (w2, Raise e) => (w2, self', Raise e)
            end
        end
  end.

(** [convert_kml_to_shapefile]: a fresh instance for every conversion. *)
Definition convert_kml_to_shapefile (input_file output_file : Str.str) (w : world)
  : world * converter * outcome Str.str :=
  convert init input_file output_file w.

End Converter.

(* ===================================================================== *)
(** ** A concrete runtime *)
(* ===================================================================== *)

Module Posix.

Fixpoint drop_until_slash (r : Str.str) : Str.str :=
  match r with
  | [] => []
  | c :: r' => if (c =? 47)%N then r else drop_until_slash r'
  end.

Fixpoint drop_slashes (r : Str.str) : Str.str :=
  match r with
  | c :: r' => if (c =? 47)%N then drop_slashes r' else r
  | [] => []
  end.

(** [posixpath.dirname] *)
Definition dirname (p : Str.str) : Str.str :=
  let head := drop_until_slash (rev p) in
  match drop_slashes head with
  | [] => rev head
  | head' => rev head'
  end.

(** On the reversed path: what precedes the last dot of the last
    component, when that component has one. *)
Fixpoint before_last_dot (r : Str.str) : option Str.str :=
  match r with
  | [] => None
  | c :: r' =>
      if (c =? 47)%N then None
      else if (c =? 46)%N then Some r'
      else before_last_dot r'
  end.

Fixpoint component_has_name (r : Str.str) : bool :=
  match r with
  | [] => false
  | c :: r' =>
      if (c =? 47)%N then false
      else if (c =? 46)%N then component_has_name r'
      else true
  end.

(** [posixpath.splitext(p)[0]] *)
Definition splitext_root (p : Str.str) : Str.str :=
  match before_last_dot (rev p) with
  | Some root => if component_has_name root then rev root else p
  | None => p
  end.

End Posix.

(** A parser known on the documents of a table. *)
Definition parser_of (docs : list (Str.str * ET.element)) (s : Str.str) : option ET.element :=
  match find (fun d => Str.eqb (fst d) s) docs with
  | Some (_, root) => Some root
  | None => None
  end.

(** ASCII text, POSIX paths, no archive support, and a parser that knows
    the documents of [docs]. *)
Definition ascii_posix (docs : list (Str.str * ET.element)) : runtime :=
  {| py_float := Float.of_str;
     py_lower := Str.ascii_lower;
     fromstring := parser_of docs;
     zip_listdir := fun _ => None;
     path_dirname := Posix.dirname;
     path_splitext_root := Posix.splitext_root |}.

(* ===================================================================== *)
(** ** Reading the geometry and index files back *)
(* ===================================================================== *)

(** The repository only writes shapefiles. The reader below follows the
    words of the format description: a 100-byte header, then in the index
    file one 8-byte entry per shape (offset and content length, both
    big-endian and in 16-bit words), and in the geometry file one record
    per shape (an 8-byte big-endian header with the record number and the
    content length in words, then the little-endian polygon). *)
Module Reader.

(** [b[start : start + len]], when the file has that many bytes. *)
Definition slice (b : Struct.bytes) (start len : nat) : option Struct.bytes :=
  let s := firstn len (skipn start b) in
  if (List.length s =? len)%nat then Some s else None.

Definition u32_be (b : Struct.bytes) (pos : nat) : option Z :=
  option_map Struct.be_value (slice b pos 4).

Definition u32_le (b : Struct.bytes) (pos : nat) : option Z :=
  option_map Struct.le_value (slice b pos 4).

Definition f64_le (b : Struct.bytes) (pos : nat) : option Float.float :=
  option_map Struct.unpack_d_le (slice b pos 8).

(** The file-length field of a header, in 16-bit words. *)
Definition header_file_length (file : Struct.bytes) : option Z := u32_be file 24.

(** The entries of an index file: offset and content length, in words. *)
Fixpoint entries_from (fuel : nat) (shx : Struct.bytes) (pos : nat) : list (Z * Z) :=
  match fuel with
  | O => []
  | S k =>
      match u32_be shx pos, u32_be shx (pos + 4) with
      | Some offset, Some len => (offset, len) :: entries_from k shx (pos + 8)
      | _, _ => []
      end
  end.

Definition shx_entries (shx : Struct.bytes) : list (Z * Z) :=
  entries_from (List.length shx) shx 100.

(** The header of the record that begins at byte [pos] of a geometry
    file: its number and its declared content length in words. *)
Definition record_header (shp : Struct.bytes) (pos : nat) : option (Z * Z) :=
  match u32_be shp pos, u32_be shp (pos + 4) with
  | Some number, Some len => Some (number, len)
  | _, _ => None
  end.

(** [n] interleaved (x, y) pairs of doubles from [pos] on. *)
Fixpoint points_from (n : nat) (content : Struct.bytes) (pos : nat) : option (list vertex) :=
  match n with
  | O => Some []
  | S k =>
      match f64_le content pos, f64_le content (pos + 8), points_from k content (pos + 16) with
      | Some x, Some y, Some rest => Some ((x, y) :: rest)
      | _, _, _ => None
      end
  end.

(** The ring of a polygon record content: shape type, box, part count,
    point count, part starts, points. *)
Definition ring_of_content (content : Struct.bytes) : option (list vertex) :=
  match u32_le content 36, u32_le content 40 with
  | Some parts, Some points =>
      points_from (Z.to_nat points) content (44 + 4 * Z.to_nat parts)
  | _, _ => None
  end.

(** Random access through one index entry: the content is the
    [2 * len] bytes that follow the 8-byte record header at word
    [offset]. *)
Definition ring_at (shp : Struct.bytes) (entry : Z * Z) : option (list vertex) :=
  let (offset, len) := entry in
  match slice shp (2 * Z.to_nat offset + 8) (2 * Z.to_nat len) with
  | Some content => ring_of_content content
  | None => None
  end.

(** The same through the offset alone: the content runs as far as its
    own point count says. *)
Definition ring_from (shp : Struct.bytes) (entry : Z * Z) : option (list vertex) :=
  ring_of_content (skipn (2 * Z.to_nat (fst entry) + 8) shp).

Fixpoint all_some {A} (l : list (option A)) : option (list A) :=
  match l with
  | [] => Some []
  | Some a :: l' => option_map (cons a) (all_some l')
  | None :: _ => None
  end.

(** The rings of a shapefile, each located through the offset and the
    content length of its index entry. *)
Definition read_rings (shp shx : Struct.bytes) : option (list (list vertex)) :=
  all_some (map (ring_at shp) (shx_entries shx)).

(** The rings of a shapefile, each located through the offset of its
    index entry. *)
Definition read_rings_by_offset (shp shx : Struct.bytes) : option (list (list vertex)) :=
  all_some (map (ring_from shp) (shx_entries shx)).

End Reader.

(* ===================================================================== *)
(** ** Sample documents *)
(* ===================================================================== *)

Module Sample.

Definition node (t : string) (cs : list ET.element) : ET.element :=
  ET.Element (Str.lit t) None cs.

Definition leaf (t x : string) : ET.element :=
  ET.Element (Str.lit t) (Some (Str.lit x)) [].

(** [<Polygon><outerBoundaryIs><LinearRing><coordinates>c</coordinates>
    </LinearRing></outerBoundaryIs></Polygon>] *)
Definition polygon (c : string) : ET.element :=
  node "Polygon" [node "outerBoundaryIs" [node "LinearRing" [leaf "coordinates" c]]].

(** A placemark with a name element. *)
Definition named (n c : string) : ET.element :=
  node "Placemark" [leaf "name" n; polygon c].

(** A placemark without a name element. *)
Definition unnamed (c : string) : ET.element :=
  node "Placemark" [polygon c].

Definition kml (placemarks : list ET.element) : ET.element :=
  node "kml" [node "Document" placemarks].

(** One placemark named Field1 with the closed ring
    85.0,27.0 85.1,27.0 85.1,27.1 85.0,27.0. *)
Definition one_field_text : Str.str :=
  Str.lit ("<kml><Document><Placemark><name>Field1</name><Polygon><outerBoundaryIs>"
           ++ "<LinearRing><coordinates>85.0,27.0 85.1,27.0 85.1,27.1 85.0,27.0"
           ++ "</coordinates></LinearRing></outerBoundaryIs></Polygon></Placemark>"
           ++ "</Document></kml>").

Definition one_field : ET.element :=
  kml [named "Field1" "85.0,27.0 85.1,27.0 85.1,27.1 85.0,27.0"].

(** Two placemarks with the ring 0,0 1,0 1,1 0,0; the first is named A,
    the second has no name element. *)
Definition two_polygons_text : Str.str :=
  Str.lit ("<kml><Document><Placemark><name>A</name><Polygon><outerBoundaryIs>"
           ++ "<LinearRing><coordinates>0,0 1,0 1,1 0,0</coordinates></LinearRing>"
           ++ "</outerBoundaryIs></Polygon></Placemark><Placemark><Polygon>"
           ++ "<outerBoundaryIs><LinearRing><coordinates>0,0 1,0 1,1 0,0</coordinates>"
           ++ "</LinearRing></outerBoundaryIs></Polygon></Placemark></Document></kml>").

Definition two_polygons : ET.element :=
  kml [named "A" "0,0 1,0 1,1 0,0"; unnamed "0,0 1,0 1,1 0,0"].

(** One placemark whose ring 0,0 1,1 0,0 has three vertices and is
    already closed. *)
Definition closed_triple_text : Str.str :=
  Str.lit ("<kml><Document><Placemark><name>T</name><Polygon><outerBoundaryIs>"
           ++ "<LinearRing><coordinates>0,0 1,1 0,0</coordinates></LinearRing>"
           ++ "</outerBoundaryIs></Polygon></Placemark></Document></kml>").

Definition closed_triple : ET.element :=
  kml [named "T" "0,0 1,1 0,0"].

(** A document without placemarks. *)
Definition no_placemark_text : Str.str := Str.lit "<kml><Document></Document></kml>".

Definition no_placemark : ET.element := kml [].

Definition documents : list (Str.str * ET.element) :=
  [(one_field_text, one_field);
   (two_polygons_text, two_polygons);
   (closed_triple_text, closed_triple);
   (no_placemark_text, no_placemark)].

Definition rt : runtime := ascii_posix documents.

(** A file system that holds one file. *)
Definition disk (path : string) (content : Struct.bytes) (now : Z) : world :=
  {| files := fun p => if Str.eqb p (Str.lit path) then Some content else None;
     dirs := [];
     refused := fun _ => None;
     clock := now |}.

Definition zero : Float.float := S754_zero false.
Definition one : Float.float := S754_finite false 4503599627370496 (-52).

(** The ring 0,0 1,0 1,1 0,0. *)
Definition square : list vertex := [(zero, zero); (one, zero); (one, one); (zero, zero)].

(** The instance after extraction from [two_polygons]. *)
Definition two_squares : converter :=
  {| shapes := [square; square];
     records := [ {| name := Str.lit "A"; description := [] |};
                  {| name := Str.lit "Polygon_3"; description := [] |} ] |}.

(** An instance with one square. *)
Definition one_square : converter :=
  {| shapes := [square];
     records := [ {| name := Str.lit "A"; description := [] |} ] |}.

End Sample.

(* ===================================================================== *)
(** ** Predicates of the properties *)
(* ===================================================================== *)

(** A vertex within the longitude and latitude ranges, in the sense of
    Python's own comparisons. *)
Definition in_range (v : vertex) : Prop :=
  Float.leb (Float.of_int (-180)) (fst v) = true /\
  Float.leb (fst v) (Float.of_int 180) = true /\
  Float.leb (Float.of_int (-90)) (snd v) = true /\
  Float.leb (snd v) (Float.of_int 90) = true.

(** [ring[0] == ring[-1]] on a non-empty ring. *)
Definition ring_closed (ring : list vertex) : bool :=
  match ring with
  | [] => false
  | first :: _ => vertex_eqb first (last ring first)
  end.

(** What every extracted ring satisfies. *)
Definition ring_ok (ring : list vertex) : Prop :=
  (3 <= List.length ring)%nat /\ ring_closed ring = true /\ Forall in_range ring.

(** The first two comma-separated fields of a token. *)
Definition lon_field (part : Str.str) : Str.str :=
  nth 0 (Str.split (Str.strip part) (Str.lit ",")) [].

Definition lat_field (part : Str.str) : Str.str :=
  nth 1 (Str.split (Str.strip part) (Str.lit ",")) [].

(** The 32 bytes of a bounding box and the 16 bytes of a vertex. *)
Definition box_bytes (box : Float.float * Float.float * Float.float * Float.float)
  : Struct.bytes :=
  let '(a, b, c, d) := box in
  Struct.pack_d_le a ++ Struct.pack_d_le b ++ Struct.pack_d_le c ++ Struct.pack_d_le d.

Definition point_bytes (coord : vertex) : Struct.bytes :=
  Struct.pack_d_le (fst coord) ++ Struct.pack_d_le (snd coord).

(** What [write_shp] adds to [file_length] and [write_shx] to [offset]
    for a shape: 4 + 44 + 16 n. *)
Definition counted (shape : list vertex) : Z := 4 + 44 + 16 * Z.of_nat (List.length shape).

(** The bytes [write_shp] writes for a shape: 8 of record header, 48 up
    to and with the part index, 16 per vertex. *)
Definition written (shape : list vertex) : Z := 8 + 48 + 16 * Z.of_nat (List.length shape).

(** The content length both writers declare for a shape, in words:
    (44 + 16 n) // 2. *)
Definition declared (shape : list vertex) : Z := 22 + 8 * Z.of_nat (List.length shape).

(** The sum of [f] over a list. *)
Definition sum_Z {A} (f : A -> Z) (l : list A) : Z :=
  fold_right (fun x acc => f x + acc) 0 l.

(** The eight bytes of an index entry. *)
Definition entry_bytes (e : Z * Z) : Struct.bytes :=
  Struct.be_bytes 4 (fst e) ++ Struct.be_bytes 4 (snd e).

(** The pairs that the index loop packs, from the value of [offset] at
    its start. *)
Fixpoint index_entries (offset : Z) (shapes : list (list vertex)) : list (Z * Z) :=
  match shapes with
  | [] => []
  | shape :: rest => (offset, declared shape) :: index_entries (offset + counted shape) rest
  end.

(** An element that [parse_kml] treats as a placemark. *)
Definition is_placemark (elem : ET.element) : bool :=
  Str.contains (Str.lit "Placemark") (ET.tag elem).

(** [new] holds what [old] held, followed by as many new shapes as new
    records, at most [placemarks] of each. *)
Definition extends (old new : converter) (placemarks : nat) : Prop :=
  exists new_shapes new_records,
    shapes new = shapes old ++ new_shapes
    /\ records new = records old ++ new_records
    /\ List.length new_shapes = List.length new_records
    /\ (List.length new_shapes <= placemarks)%nat.

(** A placemark that gives a shape: its coordinates have three vertices
    or more. *)
Definition gives_shape (rt : runtime) (elem : ET.element) : bool :=
  is_placemark elem && (3 <=? List.length (placemark_coordinates rt elem))%nat.

(** The record appended for a placemark when the instance holds [held]
    shapes: the name and the description found in it, or the default
    name. *)
Definition record_of (held : nat) (elem : ET.element) : record :=
  let name := first_text (Str.lit "name") 50 elem in
  {| name := if Str.truthy name then name
             else Str.lit "Polygon_" ++ Str.of_nat (held + 2);
     description := first_text (Str.lit "description") 100 elem |}.





(** A runtime like [ascii_posix] in which every archive unpacks to the
    directory entries [entries]. *)
Definition unpacking (entries : list (Str.str * outcome Struct.bytes))
    (docs : list (Str.str * ET.element)) : runtime :=
  {| py_float := Float.of_str;
     py_lower := Str.ascii_lower;
     fromstring := parser_of docs;
     zip_listdir := fun _ => Some entries;
     path_dirname := Posix.dirname;
     path_splitext_root := Posix.splitext_root |}.

(** The 100 bytes of a header with the given file length and box. *)
Definition header_bytes (file_length : Z)
    (box : Float.float * Float.float * Float.float * Float.float) : Struct.bytes :=
  Struct.be_bytes 4 9994 ++ Struct.zeros 20 ++ Struct.be_bytes 4 file_length
  ++ Struct.le_bytes 4 1000 ++ Struct.le_bytes 4 5 ++ box_bytes box ++ Struct.zeros 32.

(** The 32 bytes of a field descriptor and the 97 bytes that precede the
    rows of the attribute table. *)
Definition dbf_field_bytes (field : string) (width : Z) : Struct.bytes :=
  Struct.ljust0 (Struct.blit field) 11 ++ Struct.blit "C" ++ Struct.zeros 4
  ++ [width; 0] ++ Struct.zeros 14.

Definition dbf_header_bytes (count : Z) : Struct.bytes :=
  [3; 24; 1; 1] ++ Struct.le_bytes 4 count ++ Struct.le_bytes 2 193 ++ Struct.le_bytes 2 151
  ++ Struct.zeros 20 ++ dbf_field_bytes "NAME" 50 ++ dbf_field_bytes "DESC" 100 ++ [13].

(** A text without white space, and one without white space or comma. *)
Definition spaceless (s : Str.str) : Prop := Forall (fun c => Str.isspace c = false) s.
Definition plain_field (s : Str.str) : Prop :=
  Forall (fun c => Str.isspace c = false /\ c <> 44%N) s.

(** The white space of [s] is made of tabs, line feeds, carriage returns
    and spaces only. *)
Definition common_space (s : Str.str) : bool :=
  forallb (fun c => negb (Str.isspace c) || existsb (N.eqb c) [9; 10; 13; 32]%N) s.

(** The run [cur] (reversed) that [s.split()] closes at a white space. *)
Definition emit (cur : Str.str) : list Str.str :=
  match cur with [] => [] | _ => [rev cur] end.




(** The file system a call of [convert] leaves behind. *)
Definition world_after (r : world * converter * outcome Str.str) : world := fst (fst r).

(** The four paths [convert] writes for an output file name. *)
Definition output_paths (rt : runtime) (output_file : Str.str) : list Str.str :=
  map (fun ext => path_splitext_root rt output_file ++ Str.lit ext)
      [".shp"; ".shx"; ".dbf"; ".prj"]%string.

(** What the four writers raise, in the order of their calls, if any
    of them does. *)
Definition components_outcome (self : converter) : outcome unit :=
  match snd (shp_contents self []) with
  | Raise e => Raise e
  | Ok _ =>
      match snd (shx_contents self []) with
      | Raise e => Raise e
      | Ok _ =>
          match snd (dbf_contents self []) with
          | Raise e => Raise e
          | Ok _ => Ok tt
          end
      end
  end.

(* ===================================================================== *)
(** ** Floats *)
(* ===================================================================== *)

Lemma SFcompare_refl (x : spec_float) :
  x <> S754_nan -> SFcompare x x = Some Eq.
Proof.
  destruct x as [s | s | | s m e]; simpl; try congruence.
  - now destruct s.
  - intros _. rewrite Z.compare_refl, Pos.compare_cont_refl. now destruct s.
Qed.

Lemma leb_not_nan (a x : Float.float) : Float.leb a x = true -> x <> S754_nan.
Proof.
  unfold Float.leb, SFleb. intros H ->.
  destruct a; simpl in H; discriminate.
Qed.

Lemma eqb_refl_in_range (a x : Float.float) :
  Float.leb a x = true -> Float.eqb x x = true.
Proof.
  intros H. unfold Float.eqb, SFeqb.
  now rewrite (SFcompare_refl x (leb_not_nan a x H)).
Qed.

Lemma valid_lon_lat_in_range (lon lat : Float.float) :
  valid_lon_lat lon lat = true <-> in_range (lon, lat).
Proof.
  unfold valid_lon_lat, in_range; simpl.
  rewrite !andb_true_iff. tauto.
Qed.

Lemma vertex_eqb_refl (v : vertex) : in_range v -> vertex_eqb v v = true.
Proof.
  intros (H1 & _ & H2 & _). unfold vertex_eqb.
  now rewrite (eqb_refl_in_range _ _ H1), (eqb_refl_in_range _ _ H2).
Qed.

(* ===================================================================== *)
(** ** Extraction *)
(* ===================================================================== *)

Section Extraction.

Context (rt : runtime).

(** A token gives one vertex within range, or nothing. *)
Lemma parse_part_cases (part : Str.str) :
  parse_part rt part = [] \/
  exists lon lat,
    py_float rt (lon_field part) = Some lon /\
    py_float rt (lat_field part) = Some lat /\
    in_range (lon, lat) /\
    parse_part rt part = [(lon, lat)].
Proof.
  unfold parse_part, lon_field, lat_field.
  set (fields := Str.split (Str.strip part) (Str.lit ",")).
  destruct (negb (Str.truthy (Str.strip part))
            || negb (Str.contains (Str.lit ",") (Str.strip part))); [now left|].
  destruct (2 <=? List.length fields)%nat; [|now left].
  destruct (py_float rt (nth 0 fields [])) as [lon|]; [|now left].
  destruct (py_float rt (nth 1 fields [])) as [lat|]; [|now left].
  destruct (valid_lon_lat lon lat) eqn:V; [|now left].
  right. exists lon, lat. repeat split; try reflexivity.
  all: apply valid_lon_lat_in_range in V; apply V.
Qed.

Lemma parse_part_in_range (part : Str.str) : Forall in_range (parse_part rt part).
Proof.
  destruct (parse_part_cases part) as [-> | (lon & lat & _ & _ & R & ->)]; auto.
Qed.

Lemma parse_line_in_range (line : Str.str) : Forall in_range (parse_line rt line).
Proof.
  unfold parse_line. destruct (negb _); [constructor|].
  apply Forall_flat_map, Forall_forall. intros part _. apply parse_part_in_range.
Qed.

Lemma parse_coordinates_in_range (coord_text : Str.str) :
  Forall in_range (parse_coordinates rt coord_text).
Proof.
  unfold parse_coordinates. destruct (negb _); [constructor|].
  apply Forall_flat_map, Forall_forall. intros line _. apply parse_line_in_range.
Qed.

Lemma placemark_coordinates_in_range (elem : ET.element) :
  Forall in_range (placemark_coordinates rt elem).
Proof.
  unfold placemark_coordinates. destruct (find _ _); [|constructor].
  apply parse_coordinates_in_range.
Qed.

Lemma close_ring_ok (coordinates : list vertex) :
  (3 <= List.length coordinates)%nat ->
  Forall in_range coordinates ->
  ring_ok (close_ring coordinates).
Proof.
  intros L F. destruct coordinates as [|first rest]; [simpl in L; lia|].
  unfold close_ring.
  destruct (vertex_eqb first (last (first :: rest) first)) eqn:E; simpl negb; cbv iota.
  - repeat split; auto.
  - repeat split.
    + rewrite length_app. lia.
    + change ((first :: rest) ++ [first]) with (first :: (rest ++ [first])).
      unfold ring_closed.
      change (first :: (rest ++ [first])) with ((first :: rest) ++ [first]).
      rewrite last_last. apply vertex_eqb_refl. now inversion F.
    + apply Forall_app. split; auto. constructor; [now inversion F | constructor].
Qed.

(** One turn of the loop keeps the shapes it found and adds at most one,
    which is a closed ring of three vertices or more. *)
Lemma visit_shapes (self : converter) (elem : ET.element) :
  shapes (visit rt self elem) = shapes self \/
  exists ring, ring_ok ring /\ shapes (visit rt self elem) = shapes self ++ [ring].
Proof.
  unfold visit. destruct (Str.contains _ _); [|now left].
  destruct (3 <=? _)%nat eqn:L; [|now left].
  right. eexists. split; [|reflexivity].
  apply close_ring_ok; [now apply Nat.leb_le | apply placemark_coordinates_in_range].
Qed.

Lemma visit_all_ok (elems : list ET.element) (self : converter) :
  Forall ring_ok (shapes self) ->
  Forall ring_ok (shapes (fold_left (visit rt) elems self)).
Proof.
  revert self. induction elems as [|elem elems IH]; intros self H; simpl; auto.
  apply IH. destruct (visit_shapes self elem) as [-> | (ring & R & ->)]; auto.
  apply Forall_app. split; auto.
Qed.

(** Every shape held after [parse_kml] is a closed ring of three
    vertices or more within range, when those held before were. *)
Lemma parse_kml_all_ok (self : converter) (kml_content : Str.str) :
  Forall ring_ok (shapes self) ->
  Forall ring_ok (shapes (fst (parse_kml rt self kml_content))).
Proof.
  intros H. unfold parse_kml. destruct (fromstring rt kml_content); simpl; auto.
  now apply visit_all_ok.
Qed.

(** A placemark with fewer than three parsed vertices changes nothing. *)
Lemma visit_short (self : converter) (elem : ET.element) :
  (List.length (placemark_coordinates rt elem) < 3)%nat ->
  visit rt self elem = self.
Proof.
  intros L. unfold visit. destruct (Str.contains _ _); auto.
  destruct (3 <=? _)%nat eqn:E; auto.
  apply Nat.leb_le in E. lia.
Qed.

(** The record added with a shape: the name found, or the default built
    from the number of shapes after the append, plus one. *)
Lemma visit_records (self : converter) (elem : ET.element) :
  shapes (visit rt self elem) <> shapes self ->
  exists r,
    records (visit rt self elem) = records self ++ [r] /\
    (first_text (Str.lit "name") 50 elem = [] ->
     name r = Str.lit "Polygon_" ++ Str.of_nat (List.length (shapes self) + 2)).
Proof.
  unfold visit. destruct (Str.contains _ _); [|congruence].
  destruct (3 <=? _)%nat; [|congruence].
  intros _. eexists. split; [reflexivity|].
  intros ->. simpl. rewrite length_app. simpl.
  now replace (List.length (shapes self) + 1 + 1)%nat
    with (List.length (shapes self) + 2)%nat by lia.
Qed.

End Extraction.

(** C9. For every document, every vertex of every shape that [parse_kml]
    extracts satisfies -180 <= lon <= 180 and -90 <= lat <= 90; and a
    coordinate token adds nothing to the ring, without any exception, when
    it has no comma (fewer than two fields), when [float] rejects its
    longitude or its latitude field, or when the pair is out of range. *)
Theorem extracted_vertices_in_range (rt : runtime) (kml_content : Str.str) :
  Forall (Forall in_range) (shapes (fst (parse_kml rt init kml_content)))
  /\ (forall part : Str.str,
        Str.contains (Str.lit ",") (Str.strip part) = false
        \/ py_float rt (lon_field part) = None
        \/ py_float rt (lat_field part) = None
        \/ (exists lon lat,
              py_float rt (lon_field part) = Some lon /\
              py_float rt (lat_field part) = Some lat /\
              valid_lon_lat lon lat = false) ->
        parse_part rt part = []).
Proof.
  split.
  - assert (H : Forall ring_ok (shapes (fst (parse_kml rt init kml_content))))
      by (apply parse_kml_all_ok; constructor).
    eapply Forall_impl; [|exact H]. now intros ring (_ & _ & R).
  - intros part H. unfold parse_part. fold (lon_field part) (lat_field part).
    unfold lon_field, lat_field in *.
    set (fields := Str.split (Str.strip part) (Str.lit ",")) in *.
    destruct (Str.contains (Str.lit ",") (Str.strip part)) eqn:C.
    2: { now rewrite orb_true_r. }
    destruct (negb (Str.truthy (Str.strip part)) || negb true); [reflexivity|].
    destruct (2 <=? List.length fields)%nat; [|reflexivity].
    destruct H as [H | [H | [H | (lon & lat & H1 & H2 & V)]]].
    + discriminate.
    + now rewrite H.
    + rewrite H. now destruct (py_float rt (nth 0 fields [])).
    + now rewrite H1, H2, V.
Qed.

Lemma extracted_vertices_in_range_witness :
  Forall (Forall in_range)
         (shapes (fst (parse_kml Sample.rt init Sample.one_field_text)))
  /\ parse_part Sample.rt (Str.lit "200,10") = [].
Proof.
  destruct (extracted_vertices_in_range Sample.rt Sample.one_field_text) as [H D].
  split; [exact H|]. apply D.
  right; right; right. exists (Float.of_int 200), (Float.of_int 10).
  repeat split; vm_compute; reflexivity.
Defined.

(** C3, as the code has it. For every document, every ring that
    [parse_kml] appends has at least three vertices and a first vertex
    equal to its last one; a placemark with fewer than three parsed
    vertices contributes no shape. No length is checked after closing. *)
Theorem extracted_rings_closed (rt : runtime) (kml_content : Str.str) :
  Forall (fun ring => (3 <= List.length ring)%nat /\ ring_closed ring = true)
         (shapes (fst (parse_kml rt init kml_content)))
  /\ (forall (self : converter) (elem : ET.element),
        (List.length (placemark_coordinates rt elem) < 3)%nat ->
        visit rt self elem = self).
Proof.
  split.
  - assert (H : Forall ring_ok (shapes (fst (parse_kml rt init kml_content))))
      by (apply parse_kml_all_ok; constructor).
    eapply Forall_impl; [|exact H]. now intros ring (L & C & _).
  - intros self elem. apply visit_short.
Qed.

Lemma extracted_rings_closed_witness :
  Forall (fun ring => (3 <= List.length ring)%nat /\ ring_closed ring = true)
         (shapes (fst (parse_kml Sample.rt init Sample.closed_triple_text)))
  /\ visit Sample.rt init (Sample.named "P" "0,0 1,1") = init.
Proof.
  destruct (extracted_rings_closed Sample.rt Sample.closed_triple_text) as [H S].
  split; [exact H|]. apply S. vm_compute. lia.
Defined.

(** C3 as stated fails: the ring 0,0 1,1 0,0 inside a Polygon is already
    closed, nothing is appended to it, and it enters the dataset with
    three vertices. *)
Lemma closed_triple_has_three_vertices :
  shapes (fst (parse_kml Sample.rt init Sample.closed_triple_text))
  = [[(Sample.zero, Sample.zero); (Sample.one, Sample.one); (Sample.zero, Sample.zero)]]
  /\ ~ Forall (fun ring => (4 <= List.length ring)%nat /\ ring_closed ring = true)
              (shapes (fst (parse_kml Sample.rt init Sample.closed_triple_text))).
Proof.
  assert (E : shapes (fst (parse_kml Sample.rt init Sample.closed_triple_text))
              = [[(Sample.zero, Sample.zero); (Sample.one, Sample.one);
                  (Sample.zero, Sample.zero)]]) by (vm_compute; reflexivity).
  split; [exact E|]. rewrite E. intros H.
  inversion H as [|ring rest [L _] _]. simpl in L. lia.
Qed.

(** C5. In the document with two polygons of which the second has no
    name element, the records are named A and Polygon_3: the default name
    is built after the shape was appended, from [len(self.shapes) + 1]. *)
Theorem second_unnamed_polygon_is_polygon_3 :
  snd (parse_kml Sample.rt init Sample.two_polygons_text) = true
  /\ fst (parse_kml Sample.rt init Sample.two_polygons_text) = Sample.two_squares
  /\ map name (records (fst (parse_kml Sample.rt init Sample.two_polygons_text)))
     = [Str.lit "A"; Str.lit "Polygon_3"].
Proof. repeat split; vm_compute; reflexivity. Qed.

(* ===================================================================== *)
(** ** The geometry file and its index *)
(* ===================================================================== *)

Lemma le_bytes_length (n : nat) (v : Z) : List.length (Struct.le_bytes n v) = n.
Proof. revert v. induction n as [|n IH]; intros v; simpl; [reflexivity|]. now rewrite IH. Qed.

Lemma be_bytes_length (n : nat) (v : Z) : List.length (Struct.be_bytes n v) = n.
Proof. unfold Struct.be_bytes. now rewrite length_rev, le_bytes_length. Qed.

Lemma pack_I_be_ok (v : Z) (b : Struct.bytes) :
  Struct.pack_I_be v = Ok b -> b = Struct.be_bytes 4 v /\ 0 <= v < 2 ^ 32.
Proof.
  unfold Struct.pack_I_be, Struct.in_range. destruct (_ && _) eqn:E; [|discriminate].
  intros [= <-]. apply andb_true_iff in E. destruct E as [E1 E2].
  apply Z.leb_le in E1. apply Z.ltb_lt in E2. split; [reflexivity|].
  change (256 ^ Z.of_nat 4) with (2 ^ 32) in E2. lia.
Qed.

Lemma pack_I_le_ok (v : Z) (b : Struct.bytes) :
  Struct.pack_I_le v = Ok b -> b = Struct.le_bytes 4 v.
Proof.
  unfold Struct.pack_I_le. destruct (Struct.in_range 4 v); [|discriminate]. now intros [= <-].
Qed.

Lemma w_bind_packed {B} (o : outcome Struct.bytes) (k : unit -> writer B) (buf : Struct.bytes) :
  w_bind (f_write_packed o) k buf
  = match o with Ok b => k tt (buf ++ b) | Raise e => (buf, Raise e) end.
Proof. unfold f_write_packed, w_bind, w_eval, f_write. now destruct o. Qed.

Lemma w_bind_write {B} (b : Struct.bytes) (k : unit -> writer B) (buf : Struct.bytes) :
  w_bind (f_write b) k buf = k tt (buf ++ b).
Proof. reflexivity. Qed.

Lemma w_bind_eval {A B} (o : outcome A) (k : A -> writer B) (buf : Struct.bytes) :
  w_bind (w_eval o) k buf = match o with Ok a => k a buf | Raise e => (buf, Raise e) end.
Proof. unfold w_bind, w_eval. now destruct o. Qed.

Lemma f_write_box_run box buf : f_write_box box buf = (buf ++ box_bytes box, Ok tt).
Proof.
  destruct box as [[[a b] c] d]. unfold f_write_box, box_bytes, w_bind, f_write.
  now rewrite <- !app_assoc.
Qed.

Lemma box_bytes_length box : List.length (box_bytes box) = 32%nat.
Proof.
  destruct box as [[[a b] c] d]. unfold box_bytes, Struct.pack_d_le.
  now rewrite !length_app, !le_bytes_length.
Qed.

Lemma w_for_points (shape : list vertex) (buf : Struct.bytes) :
  w_for shape (fun coord => w_bind (f_write (Struct.pack_d_le (fst coord)))
                              (fun _ => f_write (Struct.pack_d_le (snd coord)))) buf
  = (buf ++ flat_map point_bytes shape, Ok tt).
Proof.
  revert buf. induction shape as [|c shape IH]; intros buf; simpl.
  - now rewrite app_nil_r.
  - unfold w_bind at 1. unfold w_bind at 1. unfold f_write at 1 2. rewrite IH.
    unfold point_bytes. now rewrite <- !app_assoc.
Qed.

Lemma flat_map_point_bytes_length (shape : list vertex) :
  List.length (flat_map point_bytes shape) = (16 * List.length shape)%nat.
Proof.
  induction shape as [|c shape IH]; cbn [flat_map]; [reflexivity|].
  rewrite length_app, IH. unfold point_bytes, Struct.pack_d_le.
  rewrite length_app, !le_bytes_length. simpl List.length. lia.
Qed.

Lemma le_value_le_bytes (n : nat) (v : Z) :
  0 <= v < 256 ^ Z.of_nat n -> Struct.le_value (Struct.le_bytes n v) = v.
Proof.
  revert v. induction n as [|n IH]; intros v H.
  - simpl in *. lia.
  - cbn [Struct.le_bytes Struct.le_value].
    rewrite Nat2Z.inj_succ, Z.pow_succ_r in H by lia.
    rewrite IH.
    + pose proof (Z.div_mod v 256). lia.
    + split; [apply Z.div_pos; lia | apply Z.div_lt_upper_bound; lia].
Qed.

Lemma be_value_be_bytes (n : nat) (v : Z) :
  0 <= v < 256 ^ Z.of_nat n -> Struct.be_value (Struct.be_bytes n v) = v.
Proof.
  intros H. unfold Struct.be_value, Struct.be_bytes.
  now rewrite rev_involutive, le_value_le_bytes.
Qed.

Lemma slice_app (pre x rest : Struct.bytes) :
  Reader.slice (pre ++ x ++ rest) (List.length pre) (List.length x) = Some x.
Proof.
  unfold Reader.slice.
  rewrite skipn_app, Nat.sub_diag, skipn_all, skipn_0, app_nil_l.
  rewrite firstn_app, Nat.sub_diag, firstn_all, firstn_0, app_nil_r.
  now rewrite Nat.eqb_refl.
Qed.

Lemma u32_be_app (pre rest : Struct.bytes) (v : Z) :
  0 <= v < 2 ^ 32 ->
  Reader.u32_be (pre ++ Struct.be_bytes 4 v ++ rest) (List.length pre) = Some v.
Proof.
  intros H. unfold Reader.u32_be.
  rewrite <- (be_bytes_length 4 v) at 2. rewrite slice_app. simpl option_map.
  now rewrite be_value_be_bytes.
Qed.

Ltac run_packed :=
  rewrite w_bind_packed;
  match goal with
  | |- context [match ?o with Ok _ => _ | Raise _ => _ end] =>
      let E := fresh "E" in destruct o eqn:E; [cbv beta | discriminate]
  end.

Lemma sum_Z_app {A} (f : A -> Z) (l1 l2 : list A) :
  sum_Z f (l1 ++ l2) = sum_Z f l1 + sum_Z f l2.
Proof. induction l1 as [|x l1 IH]; simpl; [reflexivity|]. rewrite IH. lia. Qed.

Lemma write_shp_record_run (i : nat) (shape : list vertex) (buf buf' : Struct.bytes) :
  write_shp_record i shape buf = (buf', Ok tt) ->
  exists x,
    buf' = buf ++ x
    /\ Z.of_nat (List.length x) = written shape
    /\ forall rest, Reader.record_header (buf ++ x ++ rest) (List.length buf)
                    = Some (Z.of_nat i + 1, declared shape).
Proof.
  unfold write_shp_record. cbv zeta.
  do 3 run_packed.
  rewrite w_bind_eval. destruct (bounding_box shape) as [box|]; [|discriminate].
  unfold w_bind at 1. rewrite f_write_box_run. cbv beta iota.
  do 3 run_packed.
  rewrite w_for_points. intros [= <-].
  apply pack_I_be_ok in E, E0. destruct E as [-> R], E0 as [-> R0].
  apply pack_I_le_ok in E1, E2, E3, E4. subst.
  rewrite <- !app_assoc. eexists. split; [reflexivity|]. split.
  - rewrite !length_app, !be_bytes_length, !le_bytes_length, box_bytes_length,
      flat_map_point_bytes_length. unfold written. lia.
  - intros rest. unfold Reader.record_header.
    rewrite <- !app_assoc. rewrite u32_be_app by exact R.
    replace (List.length buf + 4)%nat
      with (List.length (buf ++ Struct.be_bytes 4 (Z.of_nat i + 1)))
      by (rewrite length_app, be_bytes_length; reflexivity).
    rewrite (app_assoc buf). rewrite u32_be_app by exact R0.
    do 2 f_equal. unfold declared.
    replace (44 + Z.of_nat (List.length shape) * 16)
      with ((22 + 8 * Z.of_nat (List.length shape)) * 2) by lia.
    apply Z.div_mul. lia.
Qed.

Lemma w_for_app {A} (l1 l2 : list A) (body : A -> writer unit) (buf : Struct.bytes) :
  w_for (l1 ++ l2) body buf = w_bind (w_for l1 body) (fun _ => w_for l2 body) buf.
Proof.
  revert buf. induction l1 as [|x l1 IH]; intros buf; [reflexivity|].
  cbn [app w_for]. unfold w_bind in *.
  destruct (body x buf) as [b [u|e]]; [apply IH | reflexivity].
Qed.

Lemma shp_records_run (numbered : list (nat * list vertex)) (buf buf' : Struct.bytes) :
  shp_records numbered buf = (buf', Ok tt) ->
  exists x, buf' = buf ++ x
            /\ Z.of_nat (List.length x) = sum_Z written (map snd numbered).
Proof.
  unfold shp_records. revert buf.
  induction numbered as [|[i shape] rest IH]; intros buf; cbn [w_for map].
  - intros [= <-]. exists []. now rewrite app_nil_r.
  - unfold w_bind at 1.
    destruct (write_shp_record i shape buf) as [b [[]|e]] eqn:E; [|discriminate].
    intros H. apply IH in H. destruct H as (x2 & -> & L2).
    apply write_shp_record_run in E. destruct E as (x1 & -> & L1 & _).
    exists (x1 ++ x2). split; [now rewrite app_assoc|].
    rewrite length_app, Nat2Z.inj_add. cbn [sum_Z fold_right snd].
    unfold sum_Z in L2. lia.
Qed.

Lemma shp_header_run (self : converter) (h : Struct.bytes) :
  shp_header self [] = (h, Ok tt) ->
  List.length h = 100%nat
  /\ forall rest, Reader.header_file_length (h ++ rest) = Some (shp_file_length (shapes self)).
Proof.
  unfold shp_header.
  run_packed. rewrite w_bind_write. do 3 run_packed.
  rewrite w_bind_eval. destruct (header_box (shapes self)) as [box|]; [|discriminate].
  unfold w_bind at 1. rewrite f_write_box_run. cbv beta iota.
  rewrite !w_bind_write. unfold f_write. intros [= <-].
  apply pack_I_be_ok in E, E0. destruct E as [-> R], E0 as [-> R0].
  apply pack_I_le_ok in E1, E2. subst.
  split.
  - rewrite !length_app, !be_bytes_length, !le_bytes_length, box_bytes_length.
    unfold Struct.pack_d_le. rewrite !le_bytes_length. reflexivity.
  - intros rest. unfold Reader.header_file_length.
    cbn [app]. rewrite <- !app_assoc.
    rewrite (app_assoc (Struct.be_bytes 4 9994)).
    change 24%nat with (List.length (Struct.be_bytes 4 9994 ++ Struct.zeros 20)).
    now rewrite u32_be_app.
Qed.

Lemma combine_seq_snd {A} (l : list A) (start : nat) :
  map snd (combine (seq start (List.length l)) l) = l.
Proof.
  revert start. induction l as [|x l IH]; intros start; simpl; [reflexivity|].
  now rewrite IH.
Qed.

Lemma enumerate_snd {A} (l : list A) : map snd (enumerate l) = l.
Proof. apply combine_seq_snd. Qed.

Lemma combine_seq_nth {A} (l : list A) (start k : nat) (x : A) :
  nth_error l k = Some x ->
  nth_error (combine (seq start (List.length l)) l) k = Some ((start + k)%nat, x).
Proof.
  revert start k. induction l as [|y l IH]; intros start k; destruct k; simpl; try discriminate.
  - intros [= ->]. now rewrite Nat.add_0_r.
  - intros H. rewrite (IH (S start) k H). do 2 f_equal. lia.
Qed.

Lemma nth_error_split_firstn {A} (l : list A) (k : nat) (x : A) :
  nth_error l k = Some x -> l = firstn k l ++ x :: skipn (S k) l.
Proof.
  revert k. induction l as [|y l IH]; intros k; destruct k; simpl; try discriminate.
  - now intros [= ->].
  - intros H. f_equal. now apply IH.
Qed.

Lemma enumerate_split {A} (l : list A) (k : nat) (x : A) :
  nth_error l k = Some x ->
  enumerate l = firstn k (enumerate l) ++ (k, x) :: skipn (S k) (enumerate l).
Proof.
  intros H. apply nth_error_split_firstn. unfold enumerate.
  now rewrite (combine_seq_nth l 0 k x H).
Qed.

(** Where the records begin, and what their headers say. *)
Lemma shp_record_at (self : converter) (k : nat) (shape : list vertex) :
  snd (shp_contents self []) = Ok tt ->
  nth_error (shapes self) k = Some shape ->
  Z.of_nat (shp_record_start self k) = 100 + sum_Z written (firstn k (shapes self))
  /\ Reader.record_header (fst (shp_contents self [])) (shp_record_start self k)
     = Some (Z.of_nat k + 1, declared shape).
Proof.
  intros Hok N. unfold shp_record_start.
  pose proof (enumerate_split (shapes self) k shape N) as NE.
  pose proof (enumerate_snd (shapes self)) as SN.
  unfold shp_contents in *.
  set (E := enumerate (shapes self)) in *.
  assert (Hok' : snd ((shp_header self ;; shp_records
                       (firstn k E ++ (k, shape) :: skipn (S k) E))%writer []) = Ok tt)
    by (rewrite <- NE; exact Hok).
  replace (fst ((shp_header self ;; shp_records E)%writer []))
    with (fst ((shp_header self ;; shp_records
                  (firstn k E ++ (k, shape) :: skipn (S k) E))%writer []))
    by (rewrite <- NE; reflexivity).
  clear Hok NE. rename Hok' into Hok.
  unfold w_bind in *.
  destruct (shp_header self []) as [h [[]|e]] eqn:H; [|discriminate].
  apply shp_header_run in H. destruct H as [HL _].
  unfold shp_records in *. rewrite w_for_app in *. unfold w_bind in *.
  fold (shp_records (firstn k E)) in *.
  destruct (shp_records (firstn k E) h) as [b1 [[]|e]] eqn:P; [|discriminate].
  apply shp_records_run in P. destruct P as (x1 & -> & L1).
  rewrite <- firstn_map, SN in L1.
  cbn [w_for] in *. unfold w_bind in *.
  destruct (write_shp_record k shape (h ++ x1)) as [b2 [[]|e]] eqn:Rk; [|discriminate].
  apply write_shp_record_run in Rk. destruct Rk as (xk & -> & _ & Hk).
  fold (shp_records (skipn (S k) E)) in *.
  destruct (shp_records (skipn (S k) E) ((h ++ x1) ++ xk)) as [b3 [[]|e]] eqn:Q;
    [|discriminate].
  apply shp_records_run in Q. destruct Q as (x3 & -> & _).
  simpl fst. split.
  - rewrite length_app, Nat2Z.inj_add, HL, L1. lia.
  - rewrite <- app_assoc. apply Hk.
Qed.

Lemma shp_file_length_counted (shapes : list (list vertex)) :
  shp_file_length shapes = 50 + sum_Z counted shapes.
Proof.
  unfold shp_file_length. generalize 50.
  induction shapes as [|shape rest IH]; intros start; cbn [fold_left sum_Z fold_right]; [lia|].
  rewrite IH. unfold sum_Z, counted. lia.
Qed.

(** The length of the geometry file and the value of its file-length
    field, for every dataset that [write_shp] can write. *)
Lemma shp_contents_length (self : converter) :
  snd (shp_contents self []) = Ok tt ->
  Z.of_nat (List.length (fst (shp_contents self []))) = 100 + sum_Z written (shapes self)
  /\ Reader.header_file_length (fst (shp_contents self []))
     = Some (50 + sum_Z counted (shapes self)).
Proof.
  unfold shp_contents, w_bind.
  destruct (shp_header self []) as [h [[]|e]] eqn:H; [|discriminate].
  apply shp_header_run in H. destruct H as [HL HF].
  destruct (shp_records (enumerate (shapes self)) h) as [b [[]|e]] eqn:P; [|discriminate].
  apply shp_records_run in P. destruct P as (x & -> & L).
  rewrite enumerate_snd in L. intros _. simpl fst. split.
  - rewrite length_app, Nat2Z.inj_add, HL, L. lia.
  - now rewrite HF, shp_file_length_counted.
Qed.

Lemma write_shx_records_run (shapes : list (list vertex)) (offset : Z) (buf buf' : Struct.bytes) :
  write_shx_records offset shapes buf = (buf', Ok tt) ->
  buf' = buf ++ flat_map entry_bytes (index_entries offset shapes)
  /\ Forall (fun e => 0 <= fst e < 2 ^ 32 /\ 0 <= snd e < 2 ^ 32) (index_entries offset shapes).
Proof.
  revert offset buf. induction shapes as [|shape rest IH]; intros offset buf;
    cbn [write_shx_records index_entries flat_map].
  - intros [= <-]. now rewrite app_nil_r.
  - cbv zeta. do 2 run_packed.
    apply pack_I_be_ok in E, E0. destruct E as [-> R], E0 as [-> R0].
    intros H. apply IH in H. destruct H as [-> F].
    assert (D : (44 + Z.of_nat (List.length shape) * 16) / 2 = declared shape).
    { unfold declared.
      replace (44 + Z.of_nat (List.length shape) * 16)
        with ((22 + 8 * Z.of_nat (List.length shape)) * 2) by lia.
      apply Z.div_mul. lia. }
    rewrite D in *.
    replace (offset + (4 + (44 + Z.of_nat (List.length shape) * 16)))
      with (offset + counted shape) in * by (unfold counted; lia).
    split.
    + unfold entry_bytes at 1. cbn [fst snd]. now rewrite <- !app_assoc.
    + constructor; [split; assumption | exact F].
Qed.

Lemma shx_header_run (self : converter) (b : Struct.bytes) :
  (shx_contents self) [] = (b, Ok tt) ->
  exists h, List.length h = 100%nat
            /\ write_shx_records 50 (shapes self) h = (b, Ok tt).
Proof.
  unfold shx_contents. cbv zeta.
  run_packed. rewrite w_bind_write. do 3 run_packed.
  rewrite w_bind_eval. destruct (header_box (shapes self)) as [box|]; [|discriminate].
  unfold w_bind at 1. rewrite f_write_box_run. cbv beta iota.
  rewrite w_bind_write. intros H. eexists. split; [|exact H].
  apply pack_I_be_ok in E, E0. destruct E as [-> _], E0 as [-> _].
  apply pack_I_le_ok in E1, E2. subst.
  rewrite !length_app, !be_bytes_length, !le_bytes_length, box_bytes_length.
  reflexivity.
Qed.

Lemma u32_be_short (pre : Struct.bytes) : Reader.u32_be pre (List.length pre) = None.
Proof.
  unfold Reader.u32_be, Reader.slice. now rewrite skipn_all, firstn_nil.
Qed.

Lemma entries_from_read (entries : list (Z * Z)) (pre : Struct.bytes) (fuel : nat) :
  Forall (fun e => 0 <= fst e < 2 ^ 32 /\ 0 <= snd e < 2 ^ 32) entries ->
  (List.length entries < fuel)%nat ->
  Reader.entries_from fuel (pre ++ flat_map entry_bytes entries) (List.length pre) = entries.
Proof.
  intros F. revert pre fuel.
  induction F as [|[o l] entries [Ro Rl] _ IH]; intros pre fuel L.
  - destruct fuel; [simpl in L; lia|]. cbn [flat_map Reader.entries_from].
    now rewrite app_nil_r, u32_be_short.
  - destruct fuel; [simpl in L; lia|]. cbn [flat_map Reader.entries_from].
    change (entry_bytes (o, l)) with (Struct.be_bytes 4 o ++ Struct.be_bytes 4 l).
    cbn [fst snd] in *. rewrite <- !app_assoc.
    rewrite u32_be_app by exact Ro.
    replace (List.length pre + 4)%nat with (List.length (pre ++ Struct.be_bytes 4 o))
      by (rewrite length_app, be_bytes_length; reflexivity).
    rewrite (app_assoc pre). rewrite u32_be_app by exact Rl.
    f_equal.
    replace (List.length pre + 8)%nat
      with (List.length ((pre ++ Struct.be_bytes 4 o) ++ Struct.be_bytes 4 l))
      by (rewrite !length_app, !be_bytes_length; lia).
    rewrite (app_assoc (pre ++ Struct.be_bytes 4 o)).
    apply IH. simpl in L. lia.
Qed.

Lemma index_entries_nth (shapes : list (list vertex)) (offset : Z) (k : nat)
    (shape : list vertex) :
  nth_error shapes k = Some shape ->
  nth_error (index_entries offset shapes) k
  = Some (offset + sum_Z counted (firstn k shapes), declared shape).
Proof.
  revert offset k. induction shapes as [|s rest IH]; intros offset k; destruct k;
    cbn [nth_error index_entries firstn sum_Z fold_right]; try discriminate.
  - intros [= ->]. do 2 f_equal. lia.
  - intros H. rewrite (IH _ _ H). do 2 f_equal. unfold sum_Z. lia.
Qed.

Lemma index_entries_length (shapes : list (list vertex)) (offset : Z) :
  List.length (index_entries offset shapes) = List.length shapes.
Proof.
  revert offset. induction shapes as [|s rest IH]; intros offset; simpl; [reflexivity|].
  now rewrite IH.
Qed.

Lemma entries_bytes_length (entries : list (Z * Z)) :
  List.length (flat_map entry_bytes entries) = (8 * List.length entries)%nat.
Proof.
  induction entries as [|e es IH]; [reflexivity|].
  cbn [flat_map]. rewrite length_app, IH. unfold entry_bytes.
  rewrite length_app, !be_bytes_length. simpl List.length. lia.
Qed.

(** The entries of the index file, for every dataset that [write_shx]
    can write. *)
Lemma shx_entries_written (self : converter) :
  snd (shx_contents self []) = Ok tt ->
  Reader.shx_entries (fst (shx_contents self [])) = index_entries 50 (shapes self).
Proof.
  destruct (shx_contents self []) as [b [[]|e]] eqn:H; [|discriminate].
  intros _. apply shx_header_run in H.
  destruct H as (h & HL & H). apply write_shx_records_run in H. destruct H as [-> F].
  simpl fst. unfold Reader.shx_entries. rewrite <- HL.
  apply entries_from_read; [exact F|].
  rewrite length_app, entries_bytes_length. lia.
Qed.

(** For every dataset that both writers can write and every shape of
    index [k] (from 0): the index entry and the record header declare the
    same content length; the entry's offset is 50 plus what the method
    counts for the shapes before, 48 + 16 n each; the record begins at
    byte 100 plus what was written for the shapes before, 56 + 16 n
    each. *)
Lemma index_entry_and_record (self : converter) (k : nat) (shape : list vertex) :
  snd (shp_contents self []) = Ok tt ->
  snd (shx_contents self []) = Ok tt ->
  nth_error (shapes self) k = Some shape ->
  nth_error (Reader.shx_entries (fst (shx_contents self []))) k
  = Some (50 + sum_Z counted (firstn k (shapes self)), declared shape)
  /\ Reader.record_header (fst (shp_contents self [])) (shp_record_start self k)
     = Some (Z.of_nat k + 1, declared shape)
  /\ Z.of_nat (shp_record_start self k) = 100 + sum_Z written (firstn k (shapes self)).
Proof.
  intros P X N.
  destruct (shp_record_at self k shape P N) as [A B].
  rewrite (shx_entries_written self X), (index_entries_nth _ 50 k shape N).
  repeat split; assumption.
Qed.

Lemma sum_Z_counted_written (shapes : list (list vertex)) :
  shapes <> [] -> 2 * sum_Z counted shapes > sum_Z written shapes.
Proof.
  assert (G : forall l, 2 * sum_Z counted l >= sum_Z written l).
  { unfold sum_Z, counted, written.
    induction l as [|x l IH]; cbn [fold_right]; lia. }
  destruct shapes as [|s rest]; [congruence|]. intros _.
  specialize (G rest). unfold sum_Z, counted, written in *. cbn [fold_right]. lia.
Qed.

(** From the second shape on, the offset of the index entry is not the
    word at which the record begins. *)
Lemma index_offset_past_record (self : converter) (k : nat) (shape : list vertex)
    (offset len : Z) :
  snd (shp_contents self []) = Ok tt ->
  snd (shx_contents self []) = Ok tt ->
  nth_error (shapes self) (S k) = Some shape ->
  nth_error (Reader.shx_entries (fst (shx_contents self []))) (S k) = Some (offset, len) ->
  2 * offset > Z.of_nat (shp_record_start self (S k)).
Proof.
  intros P X N E.
  destruct (index_entry_and_record self (S k) shape P X N) as (E' & _ & St).
  assert (O : offset = 50 + sum_Z counted (firstn (S k) (shapes self))) by congruence.
  assert (NE : firstn (S k) (shapes self) <> []).
  { destruct (shapes self); [discriminate N | discriminate]. }
  pose proof (sum_Z_counted_written _ NE). lia.
Qed.

(** The file-length field exceeds the length of the file in words, for
    every dataset with a shape. *)
Lemma shp_header_field_past_length (self : converter) (field : Z) :
  snd (shp_contents self []) = Ok tt ->
  shapes self <> [] ->
  Reader.header_file_length (fst (shp_contents self [])) = Some field ->
  2 * field > Z.of_nat (List.length (fst (shp_contents self []))).
Proof.
  intros P NE F. destruct (shp_contents_length self P) as [L F'].
  assert (O : field = 50 + sum_Z counted (shapes self)) by congruence.
  pose proof (sum_Z_counted_written _ NE). lia.
Qed.

(** C2. For the dataset of one ring of four vertices, [write_shp]
    succeeds and the file-length field of its header holds 162, that is
    50 + (4 + 44 + 16 * 4), while the claimed 50 + (4 + 11 + 2 * 4) is 73
    and the file itself has 220 bytes, 110 words. *)
Theorem shp_header_length_of_one_square :
  snd (shp_contents Sample.one_square []) = Ok tt
  /\ Reader.header_file_length (fst (shp_contents Sample.one_square [])) = Some 162
  /\ shp_file_length (shapes Sample.one_square) = 162
  /\ 50 + (4 + 11 + 2 * Z.of_nat (List.length Sample.square)) = 73
  /\ List.length (fst (shp_contents Sample.one_square [])) = 220%nat.
Proof. repeat split; vm_compute; reflexivity. Qed.

(** C1. For the dataset of two rings of four vertices, both writers
    succeed; the two index entries are (50, 54) and (162, 54); the records
    begin at bytes 100 and 220 of the geometry file, where their headers
    (1, 54) and (2, 54) are found. The content lengths agree, the first
    offset is the word 50 of byte 100, but the second offset 162 is not the
    word 110 of byte 220, and no record header stands at word 162. *)
Theorem second_index_offset_misses_record :
  snd (shp_contents Sample.two_squares []) = Ok tt
  /\ snd (shx_contents Sample.two_squares []) = Ok tt
  /\ Reader.shx_entries (fst (shx_contents Sample.two_squares [])) = [(50, 54); (162, 54)]
  /\ shp_record_start Sample.two_squares 0 = 100%nat
  /\ shp_record_start Sample.two_squares 1 = 220%nat
  /\ Reader.record_header (fst (shp_contents Sample.two_squares [])) 100 = Some (1, 54)
  /\ Reader.record_header (fst (shp_contents Sample.two_squares [])) 220 = Some (2, 54)
  /\ Reader.record_header (fst (shp_contents Sample.two_squares [])) (2 * 162) = Some (0, 0).
Proof. repeat split; vm_compute; reflexivity. Qed.

(** C4. Reading back what the two writers produce for the dataset of
    two rings recovers nothing, whether a record is located through the
    offset and the content length of its index entry or through the
    offset alone. For a single ring the offset alone leads back to the
    ring, and the content length does not: it is two words short of the
    content written. *)
Theorem two_squares_do_not_read_back :
  Reader.read_rings (fst (shp_contents Sample.two_squares []))
                    (fst (shx_contents Sample.two_squares [])) = None
  /\ Reader.read_rings_by_offset (fst (shp_contents Sample.two_squares []))
                                 (fst (shx_contents Sample.two_squares [])) = None
  /\ Reader.read_rings (fst (shp_contents Sample.one_square []))
                       (fst (shx_contents Sample.one_square [])) = None
  /\ Reader.read_rings_by_offset (fst (shp_contents Sample.one_square []))
                                 (fst (shx_contents Sample.one_square []))
     = Some (shapes Sample.one_square).
Proof. repeat split; vm_compute; reflexivity. Qed.

(* ===================================================================== *)
(** ** The attribute table *)
(* ===================================================================== *)

Lemma utf8_encode_ascii (s : Str.str) :
  Forall (fun c => (c < 128)%N) s ->
  List.length (Codec.utf8_encode_ignore s) = List.length s.
Proof.
  induction 1 as [|c s Hc _ IH]; [reflexivity|].
  unfold Codec.utf8_encode_ignore in *. simpl. rewrite length_app, IH.
  unfold Codec.utf8_encode_char.
  destruct (Z.of_N c <? 128) eqn:E; [reflexivity|].
  apply Z.ltb_ge in E. cbv beta in Hc. lia.
Qed.

Lemma ljust_slice_length (s : Str.str) (n : nat) (fill : N) :
  List.length (Str.ljust (Str.slice_to n s) n fill) = n.
Proof.
  unfold Str.ljust, Str.slice_to.
  rewrite length_app, repeat_length, length_firstn. lia.
Qed.

Lemma ljust_slice_ascii (s : Str.str) (n : nat) :
  Forall (fun c => (c < 128)%N) s ->
  Forall (fun c => (c < 128)%N) (Str.ljust (Str.slice_to n s) n 32%N).
Proof.
  intros H. unfold Str.ljust, Str.slice_to. apply Forall_app. split.
  - rewrite <- (firstn_skipn n s) in H. now apply Forall_app in H.
  - apply Forall_forall. intros c Hc. apply repeat_spec in Hc. subst. lia.
Qed.

(** A row is 151 bytes long when name and description are ASCII. *)
Lemma dbf_row_ascii_length (r : record) :
  Forall (fun c => (c < 128)%N) (name r) ->
  Forall (fun c => (c < 128)%N) (description r) ->
  List.length (dbf_row r) = 151%nat.
Proof.
  intros Hn Hd. unfold dbf_row.
  rewrite !length_app, !utf8_encode_ascii, !ljust_slice_length
    by now apply ljust_slice_ascii.
  reflexivity.
Qed.

(** C6. The row written for the name U+00E9 (one character, two bytes
    in UTF-8) and an empty description has 152 bytes: the name is cut and
    padded to 50 characters before it is encoded, and its field takes 51
    bytes. *)
Theorem dbf_row_of_accented_name :
  List.length (dbf_row {| name := [233%N]; description := [] |}) = 152%nat
  /\ List.length (Codec.utf8_encode_ignore (Str.ljust (Str.slice_to 50 [233%N]) 50 32%N))
     = 51%nat.
Proof. split; vm_compute; reflexivity. Qed.

(* ===================================================================== *)
(** ** Conversion *)
(* ===================================================================== *)

Lemma eqb_refl (a : Str.str) : Str.eqb a a = true.
Proof. induction a as [|c a IH]; simpl; [reflexivity|]. now rewrite N.eqb_refl. Qed.

Lemma eqb_app_l (base a b : Str.str) : Str.eqb (base ++ a) (base ++ b) = Str.eqb a b.
Proof. induction base as [|c base IH]; simpl; [reflexivity|]. now rewrite N.eqb_refl. Qed.

Lemma w_for_rows (rows : list record) (buf : Struct.bytes) :
  w_for rows (fun r => f_write (dbf_row r)) buf = (buf ++ flat_map dbf_row rows, Ok tt).
Proof.
  revert buf. induction rows as [|r rows IH]; intros buf; simpl.
  - now rewrite app_nil_r.
  - unfold w_bind, f_write at 1. rewrite IH. now rewrite <- app_assoc.
Qed.


Section Conversion.

Context (rt : runtime).

Lemma parse_kml_found (self : converter) (kml_content : Str.str) :
  shapes (fst (parse_kml rt self kml_content)) = [] ->
  snd (parse_kml rt self kml_content) = false.
Proof.
  unfold parse_kml. destruct (fromstring rt kml_content); simpl; [|reflexivity].
  now intros ->.
Qed.

Lemma with_open_wb_eq (path : Str.str) (body : writer unit) (w : world) :
  with_open_wb rt path body w
  = match open_error rt w path with
    | Some e => (w, Raise e)
    | None => (set_file w path (fst (body [])), snd (body []))
    end.
Proof. unfold with_open_wb. destruct (open_error rt w path); [reflexivity|]. now destruct (body []). Qed.

Lemma and_then_ok (c k : world -> world * outcome unit) (w : world) :
  snd (and_then c k w) = Ok tt ->
  snd (c w) = Ok tt
  /\ snd (k (fst (c w))) = Ok tt
  /\ fst (and_then c k w) = fst (k (fst (c w))).
Proof.
  unfold and_then. destruct (c w) as [w' [[]|e]]; cbn [fst snd]; [auto | discriminate].
Qed.

Lemma with_open_wb_ok (path : Str.str) (body : writer unit) (w : world) :
  snd (with_open_wb rt path body w) = Ok tt ->
  open_error rt w path = None
  /\ snd (body []) = Ok tt
  /\ fst (with_open_wb rt path body w) = set_file w path (fst (body [])).
Proof.
  rewrite with_open_wb_eq. destruct (open_error rt w path); cbn [fst snd]; [discriminate|].
  auto.
Qed.

Lemma set_file_same (w : world) (path : Str.str) (content : Struct.bytes) :
  files (set_file w path content) path = Some content.
Proof. unfold set_file. cbn [files]. now rewrite eqb_refl. Qed.

Lemma set_file_ext (w : world) (base : Str.str) (a b : string) (content : Struct.bytes) :
  Str.eqb (Str.lit a) (Str.lit b) = false ->
  files (set_file w (base ++ Str.lit b) content) (base ++ Str.lit a) = files w (base ++ Str.lit a).
Proof. intros H. unfold set_file. cbn [files]. now rewrite eqb_app_l, H. Qed.

(** After four successful writers none of the writers' own computations
    has raised and each path holds what its writer produced. *)
Lemma write_components_files (self : converter) (base : Str.str) (w : world) :
  snd (write_components rt self base w) = Ok tt ->
  components_outcome self = Ok tt
  /\ let w' := fst (write_components rt self base w) in
     files w' (base ++ Str.lit ".shp") = Some (fst (shp_contents self []))
     /\ files w' (base ++ Str.lit ".shx") = Some (fst (shx_contents self []))
     /\ files w' (base ++ Str.lit ".dbf") = Some (fst (dbf_contents self []))
     /\ files w' (base ++ Str.lit ".prj") = Some (Struct.blit wgs84).
Proof.
  unfold write_components. intros H.
  apply and_then_ok in H as (H1 & H & ->).
  unfold write_shp in *. apply with_open_wb_ok in H1 as (_ & B1 & E1). rewrite E1 in *.
  apply and_then_ok in H as (H2 & H & ->).
  unfold write_shx in *. apply with_open_wb_ok in H2 as (_ & B2 & E2). rewrite E2 in *.
  apply and_then_ok in H as (H3 & H & ->).
  unfold write_dbf in *. apply with_open_wb_ok in H3 as (_ & B3 & E3). rewrite E3 in *.
  unfold write_prj in *. apply with_open_wb_ok in H as (_ & _ & ->).
  split.
  - unfold components_outcome. now rewrite B1, B2, B3.
  - cbv zeta. cbn [f_write fst].
    rewrite set_file_same.
    rewrite !(set_file_ext _ base ".dbf") by reflexivity. rewrite set_file_same.
    rewrite !(set_file_ext _ base ".shx") by reflexivity. rewrite set_file_same.
    rewrite !(set_file_ext _ base ".shp") by reflexivity. rewrite set_file_same.
    repeat split; reflexivity.
Qed.















End Conversion.

(** C7. When the text read from the input yields no shape, [convert]
    raises its "No polygons found" exception and the file system is the
    one it started with: no output file is written and no directory
    created. *)
Theorem no_polygons_no_output (rt : runtime) (self : converter)
    (input_file output_file : Str.str) (w : world) (kml_content : Str.str) :
  read_input rt input_file w = Ok kml_content ->
  shapes (fst (parse_kml rt self kml_content)) = [] ->
  convert rt self input_file output_file w
  = (w, fst (parse_kml rt self kml_content),
     Raise (Exception (Str.lit "No polygons found in KML file"))).
Proof.
  intros R E. unfold convert. rewrite R.
  pose proof (parse_kml_found rt self kml_content E) as F.
  destruct (parse_kml rt self kml_content) as [self' found]. simpl in *.
  now rewrite F.
Qed.

Lemma no_polygons_no_output_witness :
  convert Sample.rt init (Str.lit "in.kml") (Str.lit "out/in_converted.shp")
          (Sample.disk "in.kml" (map Z.of_N Sample.no_placemark_text) 0)
  = (Sample.disk "in.kml" (map Z.of_N Sample.no_placemark_text) 0,
     fst (parse_kml Sample.rt init Sample.no_placemark_text),
     Raise (Exception (Str.lit "No polygons found in KML file"))).
Proof.
  apply (no_polygons_no_output Sample.rt init (Str.lit "in.kml")
           (Str.lit "out/in_converted.shp")
           (Sample.disk "in.kml" (map Z.of_N Sample.no_placemark_text) 0)
           Sample.no_placemark_text);
    vm_compute; reflexivity.
Defined.

(** C8, as the code has it. For an input path that does not end in
    .kmz the bytes of the file are decoded as UTF-8 and nothing else:
    when they are valid the text is the decoded string with its line ends
    normalised, and when they are not [convert] raises
    [UnicodeDecodeError] and leaves the file system as it was. No second
    decoding is tried. *)
Theorem input_is_decoded_as_utf8_only (rt : runtime) (self : converter)
    (input_file output_file : Str.str) (w : world) (content : Struct.bytes) :
  Str.endswith (py_lower rt input_file) (Str.lit ".kmz") = false ->
  files w input_file = Some content ->
  (forall s, Codec.utf8_decode content = Some s ->
             read_input rt input_file w = Ok (Codec.universal_newlines s))
  /\ (Codec.utf8_decode content = None ->
      convert rt self input_file output_file w = (w, self, Raise UnicodeDecodeError)).
Proof.
  intros K F. unfold convert, read_input, read_text_utf8. rewrite K, F. split.
  - now intros s ->.
  - now intros ->.
Qed.

Lemma input_is_decoded_as_utf8_only_witness :
  read_input Sample.rt (Str.lit "a.kml") (Sample.disk "a.kml" [65; 13; 10; 66] 0)
  = Ok [65; 10; 66]%N
  /\ convert Sample.rt init (Str.lit "b.kml") (Str.lit "b.shp") (Sample.disk "b.kml" [233] 0)
     = (Sample.disk "b.kml" [233] 0, init, Raise UnicodeDecodeError).
Proof.
  split.
  - destruct (input_is_decoded_as_utf8_only Sample.rt init (Str.lit "a.kml")
                (Str.lit "a.shp") (Sample.disk "a.kml" [65; 13; 10; 66] 0)
                [65; 13; 10; 66]) as [H _]; [vm_compute; reflexivity ..|].
    apply (H [65; 13; 10; 66]%N). vm_compute; reflexivity.
  - destruct (input_is_decoded_as_utf8_only Sample.rt init (Str.lit "b.kml")
                (Str.lit "b.shp") (Sample.disk "b.kml" [233] 0) [233]) as [_ H];
      [vm_compute; reflexivity ..|].
    apply H. vm_compute; reflexivity.
Defined.

(** C8 as stated fails: the one-byte file E9 is the Latin-1 text U+00E9,
    and [convert] on it raises [UnicodeDecodeError]. *)
Lemma latin1_file_is_rejected :
  Str.endswith (py_lower Sample.rt (Str.lit "b.kml")) (Str.lit ".kmz") = false
  /\ Codec.latin1_decode [233] = [233%N]
  /\ convert_kml_to_shapefile Sample.rt (Str.lit "b.kml") (Str.lit "b.shp")
       (Sample.disk "b.kml" [233] 0)
     = (Sample.disk "b.kml" [233] 0, init, Raise UnicodeDecodeError).
Proof. repeat split; vm_compute; reflexivity. Qed.




(* ===================================================================== *)
(** ** Further properties of the extraction *)
(* ===================================================================== *)

Section MoreExtraction.
Context (rt : runtime).

Lemma first_text_length (key : Str.str) (limit : nat) (elem : ET.element) :
  (List.length (first_text key limit elem) <= limit)%nat.
Proof.
  unfold first_text. destruct (find _ _); [|simpl; lia].
  unfold Str.slice_to. rewrite length_firstn. lia.
Qed.

(** One turn of the loop: nothing changes, or one shape and one record
    are appended together. *)
Lemma visit_step (self : converter) (elem : ET.element) :
  visit rt self elem = self
  \/ (is_placemark elem = true /\
      exists ring r,
        shapes (visit rt self elem) = shapes self ++ [ring]
        /\ records (visit rt self elem) = records self ++ [r]
        /\ (List.length (description r) <= 100)%nat
        /\ ((1 <= List.length (name r) <= 50)%nat
            \/ name r = Str.lit "Polygon_" ++ Str.of_nat (List.length (shapes self) + 2))).
Proof.
  unfold visit, is_placemark. destruct (Str.contains _ _); [|now left].
  destruct (3 <=? _)%nat; [|now left].
  right. split; [reflexivity|]. eexists _, _. cbn [shapes records name description].
  split; [reflexivity|]. split; [reflexivity|]. split; [apply first_text_length|].
  pose proof (first_text_length (Str.lit "name") 50 elem) as L.
  destruct (first_text (Str.lit "name") 50 elem) as [|c s] eqn:E; cbn [Str.truthy].
  - right. rewrite length_app. cbn [List.length].
    now replace (List.length (shapes self) + 1 + 1)%nat with (List.length (shapes self) + 2)%nat by lia.
  - left. simpl in *. lia.
Qed.

Lemma fold_visit_extends (elems : list ET.element) (self : converter) :
  extends self (fold_left (visit rt) elems self) (List.length (filter is_placemark elems)).
Proof.
  revert self. induction elems as [|elem elems IH]; intros self; cbn [fold_left filter].
  - exists [], []. rewrite !app_nil_r. repeat split; simpl; lia.
  - destruct (visit_step self elem) as [-> | (P & ring & r & S1 & R1 & _)].
    + destruct (IH self) as (ns & nr & A & B & C & D).
      exists ns, nr. repeat split; auto. destruct (is_placemark elem); simpl; lia.
    + rewrite P. destruct (IH (visit rt self elem)) as (ns & nr & A & B & C & D).
      exists (ring :: ns), (r :: nr). rewrite A, B, S1, R1, <- !app_assoc.
      repeat split; simpl; lia.
Qed.

(** X1. [parse_kml] keeps the shapes and records the instance held, in
    their order, and appends as many shapes as records: at most one of
    each per element whose tag contains Placemark, none when the document
    does not parse. *)
Theorem parse_kml_appends_pairs (self : converter) (kml_content : Str.str) :
  exists new_shapes new_records,
    shapes (fst (parse_kml rt self kml_content)) = shapes self ++ new_shapes
    /\ records (fst (parse_kml rt self kml_content)) = records self ++ new_records
    /\ List.length new_shapes = List.length new_records
    /\ (List.length new_shapes
        <= match fromstring rt kml_content with
           | Some root => List.length (filter is_placemark (ET.iter root))
           | None => 0
           end)%nat.
Proof.
  unfold parse_kml. destruct (fromstring rt kml_content) as [root|]; cbn [fst].
  - apply fold_visit_extends.
  - exists [], []. rewrite !app_nil_r. repeat split; simpl; lia.
Qed.

Lemma visit_cases (self : converter) (elem : ET.element) :
  visit rt self elem
  = if gives_shape rt elem
    then {| shapes := shapes self ++ [close_ring (placemark_coordinates rt elem)];
            records := records self ++ [record_of (List.length (shapes self)) elem] |}
    else self.
Proof.
  unfold visit, gives_shape, is_placemark, record_of.
  destruct (Str.contains _ _); [|reflexivity]. cbn [andb].
  destruct (3 <=? _)%nat; [|reflexivity].
  rewrite length_app. cbn [List.length].
  now replace (List.length (shapes self) + 1 + 1)%nat with (List.length (shapes self) + 2)%nat by lia.
Qed.

Lemma fold_visit_records (elems : list ET.element) (self : converter) :
  let placemarks := filter (gives_shape rt) elems in
  shapes (fold_left (visit rt) elems self)
  = shapes self ++ map (fun elem => close_ring (placemark_coordinates rt elem)) placemarks
  /\ records (fold_left (visit rt) elems self)
     = records self
       ++ map (fun ne => record_of (fst ne) (snd ne))
              (combine (seq (List.length (shapes self)) (List.length placemarks)) placemarks).
Proof.
  cbv zeta. revert self. induction elems as [|elem elems IH]; intros self; cbn [fold_left filter].
  - cbn. now rewrite !app_nil_r.
  - destruct (IH (visit rt self elem)) as [S R]. rewrite S, R. clear S R IH.
    rewrite visit_cases. destruct (gives_shape rt elem); [|split; reflexivity].
    cbn [shapes records List.length map combine seq fst snd].
    rewrite length_app. cbn [List.length].
    replace (List.length (shapes self) + 1)%nat with (S (List.length (shapes self))) by lia.
    rewrite <- !app_assoc. split; reflexivity.
Qed.

(** X2. The shapes and records that [parse_kml] appends are those of
    the placemarks with three vertices or more, in document order, one of
    each per placemark: the ring is the closed list of its coordinates;
    the name is the first 50 characters of the first non-empty text in the
    placemark under a tag that contains "name", or else Polygon_ followed
    by the number of shapes held before it plus 2; the description is the
    first 100 characters found likewise, or empty. *)
Theorem records_follow_placemarks (self : converter) (kml_content : Str.str)
    (root : ET.element) :
  fromstring rt kml_content = Some root ->
  let placemarks := filter (gives_shape rt) (ET.iter root) in
  let self' := fst (parse_kml rt self kml_content) in
  shapes self'
  = shapes self ++ map (fun elem => close_ring (placemark_coordinates rt elem)) placemarks
  /\ records self'
     = records self
       ++ map (fun ne => record_of (fst ne) (snd ne))
              (combine (seq (List.length (shapes self)) (List.length placemarks)) placemarks).
Proof.
  intros F. cbv zeta. unfold parse_kml. rewrite F. cbn [fst]. apply fold_visit_records.
Qed.

End MoreExtraction.



Lemma find_none {A} (f : A -> bool) (l : list A) :
  Forall (fun x => f x = false) l -> find f l = None.
Proof. induction 1 as [|x l Hx _ IH]; simpl; [reflexivity|]. now rewrite Hx. Qed.

Lemma find_first {A} (f : A -> bool) (pre post : list A) (x : A) :
  Forall (fun y => f y = false) pre -> f x = true -> find f (pre ++ x :: post) = Some x.
Proof.
  induction 1 as [|y pre Hy _ IH]; simpl; intros Hx.
  - now rewrite Hx.
  - rewrite Hy. now apply IH.
Qed.
















Section Walk.
Context (rt : runtime).



End Walk.

Lemma records_follow_placemarks_witness :
  shapes (fst (parse_kml Sample.rt init Sample.two_polygons_text))
  = [Sample.square; Sample.square]
  /\ records (fst (parse_kml Sample.rt init Sample.two_polygons_text))
     = [ {| name := Str.lit "A"; description := [] |};
         {| name := Str.lit "Polygon_3"; description := [] |} ].
Proof.
  destruct (records_follow_placemarks Sample.rt init Sample.two_polygons_text
              Sample.two_polygons) as [S R]; [vm_compute; reflexivity|].
  rewrite S, R. vm_compute. split; reflexivity.
Defined.



(* ===================================================================== *)
(** ** Further properties of the conversion *)
(* ===================================================================== *)

Section MoreConversion.
Context (rt : runtime).

(** X6. When [convert] returns, it returns the output name with the
    extension .shp; the text of the input was read, the instance holds
    what [parse_kml] made of it, at least one shape; and the four output
    paths hold what the four writers produce for that instance, the
    projection file being the fixed WGS84 text. *)
Theorem convert_success_leaves_four_files (self : converter)
    (input_file output_file : Str.str) (w : world) (shp : Str.str) :
  snd (convert rt self input_file output_file w) = Ok shp ->
  exists kml_content,
    read_input rt input_file w = Ok kml_content
    /\ snd (fst (convert rt self input_file output_file w))
       = fst (parse_kml rt self kml_content)
    /\ shapes (fst (parse_kml rt self kml_content)) <> []
    /\ shp = path_splitext_root rt output_file ++ Str.lit ".shp"
    /\ map (files (world_after (convert rt self input_file output_file w)))
           (output_paths rt output_file)
       = [Some (fst (shp_contents (fst (parse_kml rt self kml_content)) []));
          Some (fst (shx_contents (fst (parse_kml rt self kml_content)) []));
          Some (fst (dbf_contents (fst (parse_kml rt self kml_content)) []));
          Some (Struct.blit wgs84)].
Proof.
  unfold convert, world_after.
  destruct (read_input rt input_file w) as [text|e]; [|discriminate].
  pose proof (parse_kml_found rt self text) as NF.
  destruct (parse_kml rt self text) as [self' found] eqn:PK. cbn [fst snd] in NF.
  destruct found; cbn [negb]; [|discriminate].
  destruct (make_output_dir rt output_file w) as [v [[]|e]]; [|discriminate].
  set (base := path_splitext_root rt output_file).
  pose proof (write_components_files rt self' base v) as F.
  destruct (write_components rt self' base v) as [u [[]|e]]; cbn [fst snd] in *; [|discriminate].
  intros [= <-]. exists text. rewrite PK. cbn [fst].
  split; [reflexivity|]. split; [reflexivity|].
  split. { intros E. specialize (NF E). discriminate. }
  split; [reflexivity|].
  destruct (F eq_refl) as (_ & A & B & C & D).
  unfold output_paths. cbn [map]. fold base. now rewrite A, B, C, D.
Qed.

(** X7. For an input whose lower-cased name ends in .kmz and whose
    archive unpacks to a directory in which no name, of a file or of a
    directory, ends in .kml (the comparison is case-sensitive), [convert]
    raises "Could not extract KML from KMZ file" and leaves the file
    system as it was. *)
Theorem kmz_without_document (self : converter) (input_file output_file : Str.str)
    (w : world) (archive : Struct.bytes) (entries : list (Str.str * outcome Struct.bytes)) :
  Str.endswith (py_lower rt input_file) (Str.lit ".kmz") = true ->
  files w input_file = Some archive ->
  zip_listdir rt archive = Some entries ->
  Forall (fun entry => Str.endswith (fst entry) (Str.lit ".kml") = false) entries ->
  convert rt self input_file output_file w
  = (w, self, Raise (Exception (Str.lit "Could not extract KML from KMZ file"))).
Proof.
  intros K F Z N. unfold convert, read_input, extract_kmz.
  rewrite K, F, Z. now rewrite (find_none _ _ N).
Qed.

(** X8. For an input whose lower-cased name ends in .kmz, what
    [convert] reads is decided by the first name in the unpacked
    directory that ends in .kml, whatever follows it: when the name cannot
    be opened (it is a directory) the exception of [open] is raised; when
    its bytes are not UTF-8, [UnicodeDecodeError]; when the decoded text is
    empty, "Could not extract KML from KMZ file"; otherwise the decoded
    text is the text to convert. *)
Theorem kmz_first_document_is_read (input_file : Str.str) (w : world)
    (archive : Struct.bytes) (before after : list (Str.str * outcome Struct.bytes))
    (entry_name : Str.str) (entry : outcome Struct.bytes) :
  Str.endswith (py_lower rt input_file) (Str.lit ".kmz") = true ->
  files w input_file = Some archive ->
  zip_listdir rt archive = Some (before ++ (entry_name, entry) :: after) ->
  Forall (fun entry => Str.endswith (fst entry) (Str.lit ".kml") = false) before ->
  Str.endswith entry_name (Str.lit ".kml") = true ->
  read_input rt input_file w
  = match entry with
    | Raise e => Raise e
    | Ok content =>
        match Codec.utf8_decode content with
        | None => Raise UnicodeDecodeError
        | Some s =>
            if Str.truthy (Codec.universal_newlines s)
            then Ok (Codec.universal_newlines s)
            else Raise (Exception (Str.lit "Could not extract KML from KMZ file"))
        end
    end.
Proof.
  intros K F Z N E. unfold read_input, extract_kmz.
  rewrite K, F, Z.
  rewrite (find_first (fun entry => Str.endswith (fst entry) (Str.lit ".kml"))
             before after (entry_name, entry) N E).
  destruct entry as [content|e]; [|reflexivity].
  destruct (Codec.utf8_decode content) as [s|]; [|reflexivity].
  now destruct (Codec.universal_newlines s).
Qed.

End MoreConversion.

Lemma convert_success_leaves_four_files_witness :
  exists kml_content,
    read_input Sample.rt (Str.lit "a.kml")
      (Sample.disk "a.kml" (map Z.of_N Sample.one_field_text) 0) = Ok kml_content
    /\ snd (fst (convert Sample.rt init (Str.lit "a.kml") (Str.lit "out/field.shp")
                   (Sample.disk "a.kml" (map Z.of_N Sample.one_field_text) 0)))
       = fst (parse_kml Sample.rt init kml_content)
    /\ shapes (fst (parse_kml Sample.rt init kml_content)) <> []
    /\ Str.lit "out/field.shp"
       = path_splitext_root Sample.rt (Str.lit "out/field.shp") ++ Str.lit ".shp"
    /\ map (files (world_after
                     (convert Sample.rt init (Str.lit "a.kml") (Str.lit "out/field.shp")
                        (Sample.disk "a.kml" (map Z.of_N Sample.one_field_text) 0))))
           (output_paths Sample.rt (Str.lit "out/field.shp"))
       = [Some (fst (shp_contents (fst (parse_kml Sample.rt init kml_content)) []));
          Some (fst (shx_contents (fst (parse_kml Sample.rt init kml_content)) []));
          Some (fst (dbf_contents (fst (parse_kml Sample.rt init kml_content)) []));
          Some (Struct.blit wgs84)].
Proof.
  apply (convert_success_leaves_four_files Sample.rt init (Str.lit "a.kml")
           (Str.lit "out/field.shp")
           (Sample.disk "a.kml" (map Z.of_N Sample.one_field_text) 0)
           (Str.lit "out/field.shp")).
  vm_compute; reflexivity.
Defined.

Lemma kmz_without_document_witness :
  convert (unpacking [(Str.lit "DOC.KML", Ok (map Z.of_N Sample.one_field_text));
                      (Str.lit "files", Raise IsADirectoryError);
                      (Str.lit "readme.txt", Ok [104; 105])] Sample.documents)
          init (Str.lit "area.KMZ") (Str.lit "area_converted.shp")
          (Sample.disk "area.KMZ" [80; 75; 3; 4] 0)
  = (Sample.disk "area.KMZ" [80; 75; 3; 4] 0, init,
     Raise (Exception (Str.lit "Could not extract KML from KMZ file"))).
Proof.
  apply (kmz_without_document
           (unpacking [(Str.lit "DOC.KML", Ok (map Z.of_N Sample.one_field_text));
                       (Str.lit "files", Raise IsADirectoryError);
                       (Str.lit "readme.txt", Ok [104; 105])] Sample.documents)
           init (Str.lit "area.KMZ") (Str.lit "area_converted.shp")
           (Sample.disk "area.KMZ" [80; 75; 3; 4] 0) [80; 75; 3; 4]
           [(Str.lit "DOC.KML", Ok (map Z.of_N Sample.one_field_text));
            (Str.lit "files", Raise IsADirectoryError);
            (Str.lit "readme.txt", Ok [104; 105])]);
    try (vm_compute; reflexivity).
  repeat constructor.
Defined.

Lemma kmz_first_document_is_read_witness :
  read_input (unpacking [(Str.lit "readme.txt", Ok [104; 105]);
                         (Str.lit "doc.kml", Ok (map Z.of_N Sample.one_field_text));
                         (Str.lit "x.kml", Raise IsADirectoryError)]
                        Sample.documents)
             (Str.lit "area.kmz") (Sample.disk "area.kmz" [80; 75; 3; 4] 0)
  = Ok (Codec.universal_newlines Sample.one_field_text)
  /\ read_input (unpacking [(Str.lit "x.kml", Raise IsADirectoryError);
                            (Str.lit "doc.kml", Ok (map Z.of_N Sample.one_field_text))]
                           Sample.documents)
                (Str.lit "area.kmz") (Sample.disk "area.kmz" [80; 75; 3; 4] 0)
     = Raise IsADirectoryError.
Proof.
  split.
  - etransitivity.
    + apply (kmz_first_document_is_read
               (unpacking [(Str.lit "readme.txt", Ok [104; 105]);
                           (Str.lit "doc.kml", Ok (map Z.of_N Sample.one_field_text));
                           (Str.lit "x.kml", Raise IsADirectoryError)]
                          Sample.documents)
               (Str.lit "area.kmz") (Sample.disk "area.kmz" [80; 75; 3; 4] 0) [80; 75; 3; 4]
               [(Str.lit "readme.txt", Ok [104; 105])]
               [(Str.lit "x.kml", Raise IsADirectoryError)]
               (Str.lit "doc.kml") (Ok (map Z.of_N Sample.one_field_text)));
        try (vm_compute; reflexivity).
      repeat constructor.
    + vm_compute; reflexivity.
  - apply (kmz_first_document_is_read
             (unpacking [(Str.lit "x.kml", Raise IsADirectoryError);
                         (Str.lit "doc.kml", Ok (map Z.of_N Sample.one_field_text))]
                        Sample.documents)
             (Str.lit "area.kmz") (Sample.disk "area.kmz" [80; 75; 3; 4] 0) [80; 75; 3; 4]
             [] [(Str.lit "doc.kml", Ok (map Z.of_N Sample.one_field_text))]
             (Str.lit "x.kml") (Raise IsADirectoryError));
      try (vm_compute; reflexivity).
    constructor.
Defined.

(* ===================================================================== *)
(** ** Further properties of the writers *)
(* ===================================================================== *)

Lemma header_bytes_length (file_length : Z) box :
  List.length (header_bytes file_length box) = 100%nat.
Proof.
  unfold header_bytes.
  rewrite !length_app, !be_bytes_length, !le_bytes_length, box_bytes_length.
  reflexivity.
Qed.

Lemma shp_header_bytes (self : converter) (h : Struct.bytes) :
  shp_header self [] = (h, Ok tt) ->
  exists box, header_box (shapes self) = Ok box
              /\ h = header_bytes (shp_file_length (shapes self)) box.
Proof.
  unfold shp_header.
  run_packed. rewrite w_bind_write. do 3 run_packed.
  rewrite w_bind_eval. destruct (header_box (shapes self)) as [box|]; [|discriminate].
  unfold w_bind at 1. rewrite f_write_box_run. cbv beta iota.
  rewrite !w_bind_write. unfold f_write. intros [= <-].
  apply pack_I_be_ok in E, E0. destruct E as [-> _], E0 as [-> _].
  apply pack_I_le_ok in E1, E2. subst.
  exists box. split; [reflexivity|]. unfold header_bytes.
  cbn [app]. rewrite <- !app_assoc. reflexivity.
Qed.

Lemma shx_header_bytes (self : converter) (b : Struct.bytes) :
  shx_contents self [] = (b, Ok tt) ->
  exists box, header_box (shapes self) = Ok box
              /\ write_shx_records 50 (shapes self)
                   (header_bytes (50 + Z.of_nat (List.length (shapes self)) * 4) box)
                 = (b, Ok tt).
Proof.
  unfold shx_contents. cbv zeta.
  run_packed. rewrite w_bind_write. do 3 run_packed.
  rewrite w_bind_eval. destruct (header_box (shapes self)) as [box|]; [|discriminate].
  unfold w_bind at 1. rewrite f_write_box_run. cbv beta iota.
  rewrite w_bind_write. intros H. exists box. split; [reflexivity|].
  apply pack_I_be_ok in E, E0. destruct E as [-> _], E0 as [-> _].
  apply pack_I_le_ok in E1, E2. subst.
  unfold header_bytes. cbn [app]. rewrite <- !app_assoc in H. exact H.
Qed.

Lemma firstn_app_exact {A} (a b : list A) (n : nat) :
  List.length a = n -> firstn n (a ++ b) = a.
Proof.
  intros <-. rewrite firstn_app, Nat.sub_diag, firstn_all, firstn_0. apply app_nil_r.
Qed.

(** X9. When both writers succeed, the first 100 bytes of the geometry
    file and of the index file are the same header but for the file
    length: file code 9994, 20 zero bytes, the file length, version 1000,
    shape type 5, the bounding box of all vertices and 32 zero bytes. *)
Theorem both_headers_written (self : converter) :
  snd (shp_contents self []) = Ok tt ->
  snd (shx_contents self []) = Ok tt ->
  exists box,
    header_box (shapes self) = Ok box
    /\ firstn 100 (fst (shp_contents self []))
       = header_bytes (shp_file_length (shapes self)) box
    /\ firstn 100 (fst (shx_contents self []))
       = header_bytes (50 + 4 * Z.of_nat (List.length (shapes self))) box.
Proof.
  intros P X.
  unfold shp_contents, w_bind in *.
  destruct (shp_header self []) as [h [[]|e]] eqn:H; [|discriminate].
  apply shp_header_bytes in H. destruct H as (box & B & ->).
  destruct (shp_records (enumerate (shapes self)) _) as [b [[]|e]] eqn:R; [|discriminate].
  apply shp_records_run in R. destruct R as (x & -> & _).
  destruct (shx_contents self []) as [c [[]|e]] eqn:Y; [|discriminate].
  apply shx_header_bytes in Y. destruct Y as (box' & B' & Y).
  assert (box' = box) by congruence. subst box'.
  apply write_shx_records_run in Y. destruct Y as [-> _].
  exists box. split; [exact B|]. cbn [fst]. split.
  - apply firstn_app_exact, header_bytes_length.
  - replace (4 * Z.of_nat (List.length (shapes self)))
      with (Z.of_nat (List.length (shapes self)) * 4) by lia.
    apply firstn_app_exact, header_bytes_length.
Qed.

(** X10. When [write_shp] succeeds, the file has 100 bytes of header
    and 56 + 16 n bytes for each shape of n vertices; the record of the
    shape of index [k] (from 0) begins after those of the shapes before
    it, and its header holds the number [k + 1] and the content length
    22 + 8 n. *)
Theorem shp_records_laid_out (self : converter) (k : nat) (shape : list vertex) :
  snd (shp_contents self []) = Ok tt ->
  nth_error (shapes self) k = Some shape ->
  Z.of_nat (List.length (fst (shp_contents self []))) = 100 + sum_Z written (shapes self)
  /\ Z.of_nat (shp_record_start self k) = 100 + sum_Z written (firstn k (shapes self))
  /\ Reader.record_header (fst (shp_contents self [])) (shp_record_start self k)
     = Some (Z.of_nat k + 1, declared shape).
Proof.
  intros P N. destruct (shp_contents_length self P) as [L _].
  destruct (shp_record_at self k shape P N) as [A B]. repeat split; assumption.
Qed.

Lemma u32_be_prefix (a b : Struct.bytes) (pos : nat) (v : Z) :
  Reader.u32_be a pos = Some v -> Reader.u32_be (a ++ b) pos = Some v.
Proof.
  unfold Reader.u32_be, Reader.slice.
  destruct (List.length (firstn 4 (skipn pos a)) =? 4)%nat eqn:E; [|discriminate].
  apply Nat.eqb_eq in E. intros H.
  assert (L : (pos + 4 <= List.length a)%nat).
  { rewrite length_firstn, length_skipn in E. lia. }
  rewrite skipn_app, firstn_app.
  replace (4 - List.length (skipn pos a))%nat with 0%nat by (rewrite length_skipn; lia).
  rewrite firstn_0, app_nil_r, E, Nat.eqb_refl. exact H.
Qed.

(** X11. When [write_shx] succeeds, the file has 100 bytes of header
    and 8 bytes per shape, its file-length field is that length in words,
    50 + 4 per shape, and the entry of the shape of index [k] (from 0)
    holds the offset 50 plus 48 + 16 n for each shape before it, and the
    content length 22 + 8 n. *)
Theorem shx_entries_laid_out (self : converter) (k : nat) (shape : list vertex) :
  snd (shx_contents self []) = Ok tt ->
  nth_error (shapes self) k = Some shape ->
  Z.of_nat (List.length (fst (shx_contents self [])))
  = 100 + 8 * Z.of_nat (List.length (shapes self))
  /\ Reader.header_file_length (fst (shx_contents self []))
     = Some (50 + 4 * Z.of_nat (List.length (shapes self)))
  /\ nth_error (Reader.shx_entries (fst (shx_contents self []))) k
     = Some (50 + sum_Z counted (firstn k (shapes self)), declared shape).
Proof.
  intros X N. split; [|split].
  - destruct (shx_contents self []) as [c [[]|e]] eqn:Y; [|discriminate].
    apply shx_header_bytes in Y. destruct Y as (box & _ & Y).
    apply write_shx_records_run in Y. destruct Y as [-> _]. cbn [fst].
    rewrite length_app, header_bytes_length, entries_bytes_length, index_entries_length. lia.
  - destruct (shx_contents self []) as [c [[]|e]] eqn:Y; [|discriminate].
    pose proof Y as Y0. unfold shx_contents in Y0. cbv zeta in Y0.
    rewrite w_bind_packed in Y0. destruct (Struct.pack_I_be 9994); [|discriminate].
    rewrite w_bind_write, w_bind_packed in Y0.
    destruct (Struct.pack_I_be (50 + Z.of_nat (List.length (shapes self)) * 4)) as [fl|] eqn:E;
      [|discriminate].
    apply pack_I_be_ok in E. destruct E as [_ R]. clear Y0.
    apply shx_header_bytes in Y. destruct Y as (box & _ & Y).
    apply write_shx_records_run in Y. destruct Y as [-> _]. cbn [fst].
    unfold Reader.header_file_length. apply u32_be_prefix.
    unfold header_bytes. rewrite (app_assoc (Struct.be_bytes 4 9994)).
    change 24%nat with (List.length (Struct.be_bytes 4 9994 ++ Struct.zeros 20)).
    rewrite u32_be_app by exact R. f_equal. lia.
  - rewrite (shx_entries_written self X). now apply index_entries_nth.
Qed.


Lemma pack_I_le_in_range (v : Z) :
  0 <= v < 2 ^ 32 -> Struct.pack_I_le v = Ok (Struct.le_bytes 4 v).
Proof.
  intros H. unfold Struct.pack_I_le, Struct.in_range.
  change (256 ^ Z.of_nat 4) with (2 ^ 32).
  destruct (0 <=? v) eqn:A; [|apply Z.leb_gt in A; lia].
  destruct (v <? 2 ^ 32) eqn:B; [reflexivity|apply Z.ltb_ge in B; lia].
Qed.

(** What [write_dbf] writes, for fewer than 2^32 records. *)
Lemma dbf_contents_written (self : converter) :
  Z.of_nat (List.length (records self)) < 2 ^ 32 ->
  dbf_contents self []
  = (dbf_header_bytes (Z.of_nat (List.length (records self)))
     ++ flat_map dbf_row (records self), Ok tt).
Proof.
  intros H.
  assert (R : 0 <= Z.of_nat (List.length (records self)) < 2 ^ 32) by lia.
  set (count := Z.of_nat (List.length (records self))) in *.
  unfold dbf_contents. fold count.
  rewrite w_bind_packed. change (Struct.pack_B 3) with (Ok [3] : outcome Struct.bytes).
  cbv iota beta. rewrite w_bind_write, w_bind_packed, (pack_I_le_in_range count R).
  cbv iota beta.
  rewrite w_bind_packed.
  change (Struct.pack_H_le 193) with (Ok (Struct.le_bytes 2 193) : outcome Struct.bytes).
  cbv iota beta. rewrite w_bind_packed.
  change (Struct.pack_H_le 151) with (Ok (Struct.le_bytes 2 151) : outcome Struct.bytes).
  cbv iota beta. rewrite w_bind_write.
  unfold write_dbf_field.
  change (Struct.pack_B 50) with (Ok [50] : outcome Struct.bytes).
  change (Struct.pack_B 100) with (Ok [100] : outcome Struct.bytes).
  change (Struct.pack_B 0) with (Ok [0] : outcome Struct.bytes).
  unfold w_bind, w_eval, f_write. rewrite w_for_rows.
  f_equal; unfold dbf_header_bytes, dbf_field_bytes; cbn [app];
    rewrite <- ?app_assoc; reflexivity.
Qed.

(** X12. With fewer than 2^32 records [write_dbf] does not raise; it
    writes 97 bytes before the rows (32 of header, two descriptors of 32,
    the terminator), among them the record count at byte 4 and the declared
    header length 193 and record length 151 at bytes 8 to 11, and then the
    rows of the records in their order. *)
Theorem dbf_laid_out (self : converter) :
  Z.of_nat (List.length (records self)) < 2 ^ 32 ->
  dbf_contents self []
  = (dbf_header_bytes (Z.of_nat (List.length (records self)))
     ++ flat_map dbf_row (records self), Ok tt)
  /\ List.length (dbf_header_bytes (Z.of_nat (List.length (records self)))) = 97%nat
  /\ Reader.u32_le (dbf_header_bytes (Z.of_nat (List.length (records self)))) 4
     = Some (Z.of_nat (List.length (records self)))
  /\ Reader.slice (dbf_header_bytes (Z.of_nat (List.length (records self)))) 8 4
     = Some [193; 0; 151; 0].
Proof.
  intros H. split; [now apply dbf_contents_written|].
  assert (R : 0 <= Z.of_nat (List.length (records self)) < 2 ^ 32) by lia.
  set (count := Z.of_nat (List.length (records self))) in *.
  split; [|split].
  - unfold dbf_header_bytes. rewrite !length_app, !le_bytes_length. reflexivity.
  - unfold dbf_header_bytes, Reader.u32_le.
    etransitivity;
      [apply f_equal; exact (slice_app [3; 24; 1; 1] (Struct.le_bytes 4 count) _)|].
    cbn [option_map]. now rewrite le_value_le_bytes.
  - unfold dbf_header_bytes.
    rewrite (app_assoc [3; 24; 1; 1]), (app_assoc (Struct.le_bytes 2 193)).
    exact (slice_app ([3; 24; 1; 1] ++ Struct.le_bytes 4 count)
             (Struct.le_bytes 2 193 ++ Struct.le_bytes 2 151) _).
Qed.

Lemma utf8_encode_ascii_codes (s : Str.str) :
  Forall (fun c => (c < 128)%N) s -> Codec.utf8_encode_ignore s = map Z.of_N s.
Proof.
  induction 1 as [|c s Hc _ IH]; [reflexivity|].
  unfold Codec.utf8_encode_ignore in *. cbn [flat_map map]. rewrite IH.
  unfold Codec.utf8_encode_char.
  destruct (Z.of_N c <? 128) eqn:E; [reflexivity|].
  apply Z.ltb_ge in E. cbv beta in Hc. lia.
Qed.

(** X13. For a record whose name and description are ASCII, the row is
    the flag byte 32, the name cut to 50 characters and padded with spaces
    to 50 bytes, and the description likewise to 100 bytes: 151 bytes. *)
Theorem dbf_row_of_ascii_record (r : record) :
  Forall (fun c => (c < 128)%N) (name r) ->
  Forall (fun c => (c < 128)%N) (description r) ->
  dbf_row r
  = 32 :: map Z.of_N (Str.ljust (Str.slice_to 50 (name r)) 50 32%N)
       ++ map Z.of_N (Str.ljust (Str.slice_to 100 (description r)) 100 32%N)
  /\ List.length (dbf_row r) = 151%nat.
Proof.
  intros Hn Hd.
  assert (E : dbf_row r
              = 32 :: map Z.of_N (Str.ljust (Str.slice_to 50 (name r)) 50 32%N)
                   ++ map Z.of_N (Str.ljust (Str.slice_to 100 (description r)) 100 32%N)).
  { unfold dbf_row.
    rewrite !utf8_encode_ascii_codes by now apply ljust_slice_ascii. reflexivity. }
  split; [exact E|]. rewrite E. cbn [List.length].
  rewrite length_app, !length_map, !ljust_slice_length. reflexivity.
Qed.

Lemma both_headers_written_witness :
  exists box,
    header_box (shapes Sample.two_squares) = Ok box
    /\ firstn 100 (fst (shp_contents Sample.two_squares []))
       = header_bytes (shp_file_length (shapes Sample.two_squares)) box
    /\ firstn 100 (fst (shx_contents Sample.two_squares []))
       = header_bytes (50 + 4 * Z.of_nat (List.length (shapes Sample.two_squares))) box.
Proof.
  apply (both_headers_written Sample.two_squares); vm_compute; reflexivity.
Defined.

Lemma shp_records_laid_out_witness :
  Z.of_nat (List.length (fst (shp_contents Sample.two_squares [])))
  = 100 + sum_Z written (shapes Sample.two_squares)
  /\ Z.of_nat (shp_record_start Sample.two_squares 1)
     = 100 + sum_Z written (firstn 1 (shapes Sample.two_squares))
  /\ Reader.record_header (fst (shp_contents Sample.two_squares []))
                          (shp_record_start Sample.two_squares 1)
     = Some (Z.of_nat 1 + 1, declared Sample.square).
Proof.
  apply (shp_records_laid_out Sample.two_squares 1 Sample.square); vm_compute; reflexivity.
Defined.

Lemma shx_entries_laid_out_witness :
  Z.of_nat (List.length (fst (shx_contents Sample.two_squares [])))
  = 100 + 8 * Z.of_nat (List.length (shapes Sample.two_squares))
  /\ Reader.header_file_length (fst (shx_contents Sample.two_squares []))
     = Some (50 + 4 * Z.of_nat (List.length (shapes Sample.two_squares)))
  /\ nth_error (Reader.shx_entries (fst (shx_contents Sample.two_squares []))) 1
     = Some (50 + sum_Z counted (firstn 1 (shapes Sample.two_squares)),
             declared Sample.square).
Proof.
  apply (shx_entries_laid_out Sample.two_squares 1 Sample.square); vm_compute; reflexivity.
Defined.

Lemma dbf_laid_out_witness :
  dbf_contents Sample.two_squares []
  = (dbf_header_bytes (Z.of_nat (List.length (records Sample.two_squares)))
     ++ flat_map dbf_row (records Sample.two_squares), Ok tt)
  /\ List.length (dbf_header_bytes (Z.of_nat (List.length (records Sample.two_squares))))
     = 97%nat
  /\ Reader.u32_le (dbf_header_bytes (Z.of_nat (List.length (records Sample.two_squares)))) 4
     = Some (Z.of_nat (List.length (records Sample.two_squares)))
  /\ Reader.slice (dbf_header_bytes (Z.of_nat (List.length (records Sample.two_squares)))) 8 4
     = Some [193; 0; 151; 0].
Proof.
  apply (dbf_laid_out Sample.two_squares). vm_compute; reflexivity.
Defined.

Lemma dbf_row_of_ascii_record_witness :
  dbf_row {| name := Str.lit "Field1"; description := [] |}
  = 32 :: map Z.of_N (Str.ljust (Str.slice_to 50 (Str.lit "Field1")) 50 32%N)
       ++ map Z.of_N (Str.ljust (Str.slice_to 100 []) 100 32%N)
  /\ List.length (dbf_row {| name := Str.lit "Field1"; description := [] |}) = 151%nat.
Proof.
  apply (dbf_row_of_ascii_record {| name := Str.lit "Field1"; description := [] |});
    vm_compute; repeat constructor.
Defined.

(* ===================================================================== *)
(** ** When the writers succeed *)
(* ===================================================================== *)











Section Success.
Context (rt : runtime).


End Success.


(* ===================================================================== *)
(** ** Bounding boxes and coordinate tokens *)
(* ===================================================================== *)

(** The comparison of two finite floats of one sign: exponents first. *)
Lemma lex_lt_trans (e1 e2 e3 : Z) (m1 m2 m3 : positive) :
  match e1 ?= e2 with Lt => Lt | Gt => Gt | Eq => Pos.compare_cont Eq m1 m2 end = Lt ->
  match e2 ?= e3 with Lt => Lt | Gt => Gt | Eq => Pos.compare_cont Eq m2 m3 end = Lt ->
  match e1 ?= e3 with Lt => Lt | Gt => Gt | Eq => Pos.compare_cont Eq m1 m3 end = Lt.
Proof.
  change (Pos.compare_cont Eq) with Pos.compare.
  destruct (Z.compare_spec e1 e2), (Z.compare_spec e2 e3), (Z.compare_spec e1 e3);
    subst; try lia; try discriminate; try reflexivity.
  rewrite !Pos.compare_lt_iff. lia.
Qed.

Lemma lex_gt_trans (e1 e2 e3 : Z) (m1 m2 m3 : positive) :
  match e1 ?= e2 with Lt => Lt | Gt => Gt | Eq => Pos.compare_cont Eq m1 m2 end = Gt ->
  match e2 ?= e3 with Lt => Lt | Gt => Gt | Eq => Pos.compare_cont Eq m2 m3 end = Gt ->
  match e1 ?= e3 with Lt => Lt | Gt => Gt | Eq => Pos.compare_cont Eq m1 m3 end = Gt.
Proof.
  change (Pos.compare_cont Eq) with Pos.compare.
  destruct (Z.compare_spec e1 e2), (Z.compare_spec e2 e3), (Z.compare_spec e1 e3);
    subst; try lia; try discriminate; try reflexivity.
  rewrite !Pos.compare_gt_iff. lia.
Qed.

Lemma CompOpp_lt (c : comparison) : CompOpp c = Lt <-> c = Gt.
Proof. destruct c; simpl; split; congruence. Qed.

Lemma ltb_trans (a b c : Float.float) :
  Float.ltb a b = true -> Float.ltb b c = true -> Float.ltb a c = true.
Proof.
  unfold Float.ltb, SFltb.
  destruct a as [sa|sa| |sa ma ea], b as [sb|sb| |sb mb eb], c as [sc|sc| |sc mc ec];
    cbn [SFcompare]; try discriminate;
    try (destruct sa; try discriminate); try (destruct sb; try discriminate);
    try (destruct sc; try discriminate); try reflexivity.
  - intros H1 H2.
    destruct (match ea ?= eb with Lt => Gt | Eq => CompOpp (Pos.compare_cont Eq ma mb) | Gt => Lt end) eqn:A;
      try discriminate.
    destruct (match eb ?= ec with Lt => Gt | Eq => CompOpp (Pos.compare_cont Eq mb mc) | Gt => Lt end) eqn:B;
      try discriminate.
    assert (A' : match ea ?= eb with Lt => Lt | Gt => Gt | Eq => Pos.compare_cont Eq ma mb end = Gt).
    { destruct (ea ?= eb); try discriminate; try reflexivity. now apply CompOpp_lt. }
    assert (B' : match eb ?= ec with Lt => Lt | Gt => Gt | Eq => Pos.compare_cont Eq mb mc end = Gt).
    { destruct (eb ?= ec); try discriminate; try reflexivity. now apply CompOpp_lt. }
    pose proof (lex_gt_trans _ _ _ _ _ _ A' B') as C.
    destruct (ea ?= ec); try discriminate; try reflexivity.
    now rewrite C.
  - intros H1 H2.
    destruct (match ea ?= eb with Lt => Lt | Eq => Pos.compare_cont Eq ma mb | Gt => Gt end) eqn:A;
      try discriminate.
    destruct (match eb ?= ec with Lt => Lt | Eq => Pos.compare_cont Eq mb mc | Gt => Gt end) eqn:B;
      try discriminate.
    now rewrite (lex_lt_trans _ _ _ _ _ _ A B).
Qed.

Lemma ltb_irrefl (a : Float.float) : Float.ltb a a = false.
Proof.
  unfold Float.ltb, SFltb. destruct a as [s|s| |s m e]; cbn [SFcompare]; try reflexivity.
  - now destruct s.
  - rewrite Z.compare_refl, Pos.compare_cont_refl. now destruct s.
Qed.

Lemma min_spec (xs : list Float.float) (m : Float.float) :
  Float.min xs = Ok m ->
  In m xs /\ Forall (fun x => Float.ltb x m = false) xs.
Proof.
  destruct xs as [|x xs]; [discriminate|]. cbn [Float.min]. intros [= <-].
  assert (G : forall seen m0,
             In m0 seen -> Forall (fun y => Float.ltb y m0 = false) seen ->
             let m := fold_left (fun m y => if Float.ltb y m then y else m) xs m0 in
             In m (seen ++ xs) /\ Forall (fun y => Float.ltb y m = false) (seen ++ xs)).
  { induction xs as [|y ys IH]; intros seen m0 I F; cbn [fold_left].
    - rewrite app_nil_r. now split.
    - change (seen ++ y :: ys) with (seen ++ [y] ++ ys). rewrite app_assoc.
      destruct (Float.ltb y m0) eqn:E; apply IH.
      + apply in_or_app. right. now left.
      + apply Forall_app. split.
        * eapply Forall_impl; [|exact F]. cbv beta. intros z Hz.
          destruct (Float.ltb z y) eqn:Z; [|reflexivity].
          now rewrite (ltb_trans z y m0 Z E) in Hz.
        * constructor; [apply ltb_irrefl | constructor].
      + apply in_or_app. now left.
      + apply Forall_app. split; [exact F|]. constructor; [exact E | constructor]. }
  apply (G [x] x); [now left|]. constructor; [apply ltb_irrefl | constructor].
Qed.

Lemma max_spec (xs : list Float.float) (m : Float.float) :
  Float.max xs = Ok m ->
  In m xs /\ Forall (fun x => Float.ltb m x = false) xs.
Proof.
  destruct xs as [|x xs]; [discriminate|]. cbn [Float.max]. intros [= <-].
  assert (G : forall seen m0,
             In m0 seen -> Forall (fun y => Float.ltb m0 y = false) seen ->
             let m := fold_left (fun m y => if Float.ltb m y then y else m) xs m0 in
             In m (seen ++ xs) /\ Forall (fun y => Float.ltb m y = false) (seen ++ xs)).
  { induction xs as [|y ys IH]; intros seen m0 I F; cbn [fold_left].
    - rewrite app_nil_r. now split.
    - change (seen ++ y :: ys) with (seen ++ [y] ++ ys). rewrite app_assoc.
      destruct (Float.ltb m0 y) eqn:E; apply IH.
      + apply in_or_app. right. now left.
      + apply Forall_app. split.
        * eapply Forall_impl; [|exact F]. cbv beta. intros z Hz.
          destruct (Float.ltb y z) eqn:Z; [|reflexivity].
          now rewrite (ltb_trans m0 y z E Z) in Hz.
        * constructor; [apply ltb_irrefl | constructor].
      + apply in_or_app. now left.
      + apply Forall_app. split; [exact F|]. constructor; [exact E | constructor]. }
  apply (G [x] x); [now left|]. constructor; [apply ltb_irrefl | constructor].
Qed.

(** X15. The box that the writers compute for a list of vertices is
    exact: each of its four values is a coordinate of some vertex, no
    vertex has a longitude below min x or above max x, and none a latitude
    below min y or above max y, in the sense of Python's [<]. *)
Theorem bounding_box_is_exact (coords : list vertex)
    (min_x min_y max_x max_y : Float.float) :
  bounding_box coords = Ok (min_x, min_y, max_x, max_y) ->
  In min_x (map fst coords) /\ In max_x (map fst coords)
  /\ In min_y (map snd coords) /\ In max_y (map snd coords)
  /\ Forall (fun v => Float.ltb (fst v) min_x = false /\ Float.ltb max_x (fst v) = false
                      /\ Float.ltb (snd v) min_y = false /\ Float.ltb max_y (snd v) = false)
            coords.
Proof.
  unfold bounding_box.
  destruct (Float.min (map fst coords)) as [a|] eqn:A; [|discriminate].
  destruct (Float.min (map snd coords)) as [b|] eqn:B; [|discriminate].
  destruct (Float.max (map fst coords)) as [c|] eqn:C; [|discriminate].
  destruct (Float.max (map snd coords)) as [d|] eqn:D; [|discriminate].
  intros [= -> -> -> ->].
  apply min_spec in A, B. apply max_spec in C, D.
  destruct A as [A1 A2], B as [B1 B2], C as [C1 C2], D as [D1 D2].
  repeat split; auto.
  rewrite Forall_map in A2, B2, C2, D2.
  rewrite Forall_forall in *. intros v Hv. auto.
Qed.

Lemma bounding_box_is_exact_witness :
  In Sample.zero (map fst Sample.square) /\ In Sample.one (map fst Sample.square)
  /\ In Sample.zero (map snd Sample.square) /\ In Sample.one (map snd Sample.square)
  /\ Forall (fun v => Float.ltb (fst v) Sample.zero = false
                      /\ Float.ltb Sample.one (fst v) = false
                      /\ Float.ltb (snd v) Sample.zero = false
                      /\ Float.ltb Sample.one (snd v) = false)
            Sample.square.
Proof.
  apply (bounding_box_is_exact Sample.square Sample.zero Sample.zero Sample.one Sample.one).
  vm_compute; reflexivity.
Defined.

Lemma lstrip_spaceless (s : Str.str) : spaceless s -> Str.lstrip s = s.
Proof. intros H. destruct H as [|c s Hc _]; [reflexivity|]. simpl. now rewrite Hc. Qed.

Lemma strip_spaceless (s : Str.str) : spaceless s -> Str.strip s = s.
Proof.
  intros H. unfold Str.strip, Str.rstrip. rewrite (lstrip_spaceless s H).
  rewrite lstrip_spaceless; [apply rev_involutive|].
  unfold spaceless. now apply Forall_rev.
Qed.

Lemma startswith_nil (s : Str.str) : Str.startswith s [] = true.
Proof. now destruct s. Qed.

Lemma split_from_plain (c : N) (a cur : Str.str) :
  Forall (fun x => x <> c) a ->
  Str.split_from [c] 0 cur a = [rev cur ++ a].
Proof.
  intros H. revert cur. induction H as [|x a Hx _ IH]; intros cur; cbn [Str.split_from].
  - now rewrite app_nil_r.
  - cbn [Str.startswith]. destruct (N.eqb_spec c x) as [->|_]; [congruence|].
    cbn [andb]. rewrite IH. cbn [rev]. now rewrite <- app_assoc.
Qed.

Lemma split_from_cut (c : N) (a cur rest : Str.str) :
  Forall (fun x => x <> c) a ->
  Str.split_from [c] 0 cur (a ++ c :: rest)
  = (rev cur ++ a) :: Str.split_from [c] 0 [] rest.
Proof.
  intros H. revert cur. induction H as [|x a Hx _ IH]; intros cur;
    cbn [app Str.split_from Str.startswith].
  - rewrite N.eqb_refl. cbn [andb List.length Nat.pred]. rewrite startswith_nil. now rewrite app_nil_r.
  - destruct (N.eqb_spec c x) as [->|_]; [congruence|].
    cbn [andb]. rewrite IH. cbn [rev]. now rewrite <- app_assoc.
Qed.

Lemma contains_cut (c : N) (a rest : Str.str) :
  Str.contains [c] (a ++ c :: rest) = true.
Proof.
  induction a as [|x a IH]; cbn [app Str.contains Str.startswith].
  - now rewrite N.eqb_refl, startswith_nil.
  - rewrite IH. apply orb_true_r.
Qed.

Lemma split_from_head (c : N) (rest cur : Str.str) :
  exists first others, Str.split_from [c] 0 cur rest = first :: others.
Proof.
  revert cur. induction rest as [|x rest IH]; intros cur; cbn [Str.split_from].
  - eexists _, _; reflexivity.
  - destruct (Str.startswith (x :: rest) [c]); [eexists _, _; reflexivity | apply IH].
Qed.

Section Token.
Context (rt : runtime).

(** X16. A token [lon,lat] without white space gives the vertex of its
    two fields when [float] accepts both and the pair is in range, and
    nothing otherwise; a third field and whatever follows it (the
    altitude) changes nothing. *)
Theorem token_read_from_two_fields (a b e : Str.str) :
  plain_field a -> plain_field b -> spaceless e ->
  let vertex :=
    match py_float rt a, py_float rt b with
    | Some lon, Some lat => if valid_lon_lat lon lat then [(lon, lat)] else []
    | _, _ => []
    end in
  parse_part rt (a ++ [44%N] ++ b) = vertex
  /\ parse_part rt (a ++ [44%N] ++ b ++ [44%N] ++ e) = vertex.
Proof.
  intros Ha Hb He vertex.
  assert (Sa : spaceless a) by (eapply Forall_impl; [|exact Ha]; now intros c [H _]).
  assert (Sb : spaceless b) by (eapply Forall_impl; [|exact Hb]; now intros c [H _]).
  assert (Ca : Forall (fun x => x <> 44%N) a) by (eapply Forall_impl; [|exact Ha]; now intros c [_ H]).
  assert (Cb : Forall (fun x => x <> 44%N) b) by (eapply Forall_impl; [|exact Hb]; now intros c [_ H]).
  assert (S1 : spaceless (a ++ [44%N] ++ b)).
  { apply Forall_app. split; [exact Sa|]. constructor; [reflexivity | exact Sb]. }
  assert (S2 : spaceless (a ++ [44%N] ++ b ++ [44%N] ++ e)).
  { apply Forall_app. split; [exact Sa|]. constructor; [reflexivity|].
    apply Forall_app. split; [exact Sb|]. constructor; [reflexivity | exact He]. }
  split; unfold parse_part; change (Str.lit ",") with [44%N].
  - rewrite (strip_spaceless _ S1). cbn [app].
    rewrite (contains_cut 44 a b).
    replace (Str.truthy (a ++ 44%N :: b)) with true by (now destruct a).
    cbn [negb orb]. unfold Str.split.
    rewrite (split_from_cut 44 a [] b Ca), (split_from_plain 44 b [] Cb).
    cbn [rev app List.length Nat.leb nth]. reflexivity.
  - rewrite (strip_spaceless _ S2). cbn [app].
    rewrite (contains_cut 44 a (b ++ 44%N :: e)).
    replace (Str.truthy (a ++ 44%N :: b ++ 44%N :: e)) with true by (now destruct a).
    cbn [negb orb]. unfold Str.split.
    rewrite (split_from_cut 44 a [] (b ++ 44%N :: e) Ca), (split_from_cut 44 b [] e Cb).
    destruct (split_from_head 44 e []) as (f & o & ->).
    cbn [rev app List.length Nat.leb nth]. reflexivity.
Qed.

End Token.

Lemma token_read_from_two_fields_witness :
  let vertex :=
    match py_float Sample.rt (Str.lit "85.1"), py_float Sample.rt (Str.lit "27.0") with
    | Some lon, Some lat => if valid_lon_lat lon lat then [(lon, lat)] else []
    | _, _ => []
    end in
  parse_part Sample.rt (Str.lit "85.1" ++ [44%N] ++ Str.lit "27.0") = vertex
  /\ parse_part Sample.rt
       (Str.lit "85.1" ++ [44%N] ++ Str.lit "27.0" ++ [44%N] ++ Str.lit "1200") = vertex.
Proof.
  apply (token_read_from_two_fields Sample.rt (Str.lit "85.1") (Str.lit "27.0")
           (Str.lit "1200")).
  - repeat first [apply Forall_nil | apply Forall_cons; [split; [reflexivity | discriminate]|]].
  - repeat first [apply Forall_nil | apply Forall_cons; [split; [reflexivity | discriminate]|]].
  - repeat first [apply Forall_nil | apply Forall_cons; [reflexivity|]].
Defined.

(* ===================================================================== *)
(** ** Coordinate text as a sequence of tokens *)

Lemma split_ws_from_space (cur : Str.str) (c : N) (s : Str.str) :
  Str.isspace c = true ->
  Str.split_ws_from cur (c :: s) = emit cur ++ Str.split_ws_from [] s.
Proof. intros H. cbn [Str.split_ws_from]. rewrite H. now destruct cur. Qed.

Lemma split_ws_from_cut (c : N) (u v cur : Str.str) :
  Str.isspace c = true ->
  Str.split_ws_from cur (u ++ c :: v) = Str.split_ws_from cur u ++ Str.split_ws_from [] v.
Proof.
  intros H. revert cur. induction u as [|x u IH]; intros cur.
  - cbn [app]. rewrite split_ws_from_space by exact H. now destruct cur.
  - cbn [app Str.split_ws_from]. destruct (Str.isspace x).
    + destruct cur; rewrite IH; reflexivity.
    + apply IH.
Qed.

Lemma split_ws_from_spaceless (u cur : Str.str) :
  spaceless u ->
  Str.split_ws_from cur u = emit (rev u ++ cur).
Proof.
  intros H. revert cur. induction H as [|x u Hx _ IH]; intros cur.
  - reflexivity.
  - cbn [Str.split_ws_from]. rewrite Hx, IH. cbn [rev]. now rewrite <- app_assoc.
Qed.

Lemma split_ws_spaceless (u : Str.str) :
  spaceless u -> Str.split_ws u = match u with [] => [] | _ => [u] end.
Proof.
  intros H. unfold Str.split_ws. rewrite split_ws_from_spaceless by exact H.
  rewrite app_nil_r. destruct u as [|x u]; [reflexivity|].
  unfold emit. rewrite rev_involutive.
  destruct (rev (x :: u)) eqn:E; [|reflexivity].
  apply (f_equal (@List.length N)) in E. rewrite length_rev in E. discriminate.
Qed.

Lemma split_ws_blank (t : Str.str) :
  Forall (fun c => Str.isspace c = true) t -> Str.split_ws t = [].
Proof.
  unfold Str.split_ws. induction 1 as [|c t Hc _ IH]; [reflexivity|].
  cbn [Str.split_ws_from]. now rewrite Hc.
Qed.

Lemma split_ws_trailing (u t : Str.str) :
  Forall (fun c => Str.isspace c = true) t -> Str.split_ws (u ++ t) = Str.split_ws u.
Proof.
  intros H. destruct H as [|c t Hc Ht]; [now rewrite app_nil_r|].
  unfold Str.split_ws. rewrite split_ws_from_cut by exact Hc.
  change (Str.split_ws_from [] t) with (Str.split_ws t).
  rewrite (split_ws_blank t Ht). apply app_nil_r.
Qed.

Lemma lstrip_cut (s : Str.str) :
  exists sp, Forall (fun c => Str.isspace c = true) sp /\ s = sp ++ Str.lstrip s.
Proof.
  induction s as [|c s [sp [F E]]]; [now exists []|].
  cbn [Str.lstrip]. destruct (Str.isspace c) eqn:Hc.
  - exists (c :: sp). split; [now constructor|]. cbn [app]. now f_equal.
  - now exists [].
Qed.

Lemma rstrip_cut (s : Str.str) :
  exists sp, Forall (fun c => Str.isspace c = true) sp /\ s = Str.rstrip s ++ sp.
Proof.
  destruct (lstrip_cut (rev s)) as [sp [F E]]. exists (rev sp). split.
  - now apply Forall_rev.
  - unfold Str.rstrip. rewrite <- rev_app_distr, <- E. symmetry. apply rev_involutive.
Qed.

Lemma split_ws_lstrip (s : Str.str) : Str.split_ws (Str.lstrip s) = Str.split_ws s.
Proof.
  unfold Str.split_ws. induction s as [|c s IH]; [reflexivity|].
  cbn [Str.lstrip Str.split_ws_from]. destruct (Str.isspace c) eqn:Hc; [exact IH|].
  cbn [Str.split_ws_from]. now rewrite Hc.
Qed.

Lemma split_ws_rstrip (s : Str.str) : Str.split_ws (Str.rstrip s) = Str.split_ws s.
Proof.
  destruct (rstrip_cut s) as [sp [F E]]. rewrite E at 2. symmetry. now apply split_ws_trailing.
Qed.

Lemma split_ws_strip (s : Str.str) : Str.split_ws (Str.strip s) = Str.split_ws s.
Proof. unfold Str.strip. now rewrite split_ws_rstrip, split_ws_lstrip. Qed.

Lemma strip_keeps (P : N -> Prop) (s : Str.str) : Forall P s -> Forall P (Str.strip s).
Proof.
  intros H. unfold Str.strip.
  destruct (lstrip_cut s) as [sp [_ E]]. rewrite E in H. apply Forall_app in H as [_ H].
  destruct (rstrip_cut (Str.lstrip s)) as [sp' [_ E']]. rewrite E' in H.
  now apply Forall_app in H as [H _].
Qed.

(** Replacing one character by another. *)
Lemma replace_single (a b : N) (s : Str.str) :
  Str.replace s [a] [b] = map (fun x => if N.eqb a x then b else x) s.
Proof.
  unfold Str.replace. induction s as [|x s IH]; [reflexivity|].
  cbn [Str.replace_from Str.startswith map]. rewrite startswith_nil, andb_true_r.
  destruct (N.eqb a x); cbn [List.length Nat.pred app]; now rewrite IH.
Qed.

Lemma split_ws_from_map (f : N -> N) (s cur : Str.str) :
  (forall x, Str.isspace (f x) = Str.isspace x) ->
  (forall x, Str.isspace x = false -> f x = x) ->
  Str.split_ws_from cur (map f s) = Str.split_ws_from cur s.
Proof.
  intros Hs Hf. revert cur. induction s as [|x s IH]; intros cur; [reflexivity|].
  cbn [map Str.split_ws_from]. rewrite Hs. destruct (Str.isspace x) eqn:Hx.
  - destruct cur; now rewrite IH.
  - rewrite (Hf x Hx). apply IH.
Qed.

Lemma split_ws_replace_single (a b : N) (s : Str.str) :
  Str.isspace a = true -> Str.isspace b = true ->
  Str.split_ws (Str.replace s [a] [b]) = Str.split_ws s.
Proof.
  intros Ha Hb. rewrite replace_single. unfold Str.split_ws. apply split_ws_from_map.
  - intros x. destruct (N.eqb_spec a x) as [<-|_]; [congruence | reflexivity].
  - intros x Hx. destruct (N.eqb_spec a x) as [<-|_]; [congruence | reflexivity].
Qed.

Lemma replace_crlf_step (x : N) (s : Str.str) :
  Str.replace_from [13; 10]%N [10%N] 0 (x :: s)
  = match s with
    | y :: s' => if (13 =? x)%N && (10 =? y)%N
                 then 10%N :: Str.replace_from [13; 10]%N [10%N] 0 s'
                 else x :: Str.replace_from [13; 10]%N [10%N] 0 s
    | [] => [x]
    end.
Proof.
  cbn [Str.replace_from Str.startswith]. destruct s as [|y s'].
  - now rewrite andb_false_r.
  - change (Str.startswith (y :: s') [10%N]) with ((10 =? y)%N && Str.startswith s' []).
    rewrite startswith_nil, andb_true_r. now destruct ((13 =? x)%N && (10 =? y)%N).
Qed.

Lemma split_ws_replace_crlf_upto (n : nat) (s cur : Str.str) :
  (List.length s <= n)%nat ->
  Str.split_ws_from cur (Str.replace_from [13; 10]%N [10%N] 0 s) = Str.split_ws_from cur s.
Proof.
  revert s cur. induction n as [|n IH]; intros s cur L.
  - destruct s; [reflexivity | cbn in L; lia].
  - destruct s as [|x s]; [reflexivity|]. cbn [List.length] in L.
    rewrite replace_crlf_step. destruct s as [|y s'].
    + reflexivity.
    + destruct (N.eqb_spec 13 x) as [<-|_]; cbn [andb].
      * destruct (N.eqb_spec 10 y) as [<-|_].
        -- rewrite !split_ws_from_space by reflexivity.
           f_equal. cbn [List.length] in L.
           rewrite IH by lia. reflexivity.
        -- cbn [Str.split_ws_from]. change (Str.isspace 13) with true. cbv iota.
           destruct cur; rewrite IH by lia; reflexivity.
      * cbn [Str.split_ws_from]. destruct (Str.isspace x);
          [destruct cur|]; rewrite IH by lia; reflexivity.
Qed.

Lemma split_ws_replace_crlf (s : Str.str) :
  Str.split_ws (Str.replace s [13; 10]%N [10%N]) = Str.split_ws s.
Proof. unfold Str.split_ws, Str.replace. now apply (split_ws_replace_crlf_upto (List.length s)). Qed.

Lemma replace_from_keeps (P : N -> Prop) (old new s : Str.str) (skip : nat) :
  Forall P new -> Forall P s -> Forall P (Str.replace_from old new skip s).
Proof.
  intros Hn H. revert skip. induction H as [|x s Hx _ IH]; intros skip; [constructor|].
  cbn [Str.replace_from]. destruct skip; [|apply IH].
  destruct (Str.startswith (x :: s) old).
  - apply Forall_app. split; [exact Hn | apply IH].
  - constructor; [exact Hx | apply IH].
Qed.

(** Induction on the occurrences of a character. *)
Lemma cut_ind (c : N) (P : Str.str -> Prop) :
  (forall a, Forall (fun x => x <> c) a -> P a) ->
  (forall a rest, Forall (fun x => x <> c) a -> P rest -> P (a ++ c :: rest)) ->
  forall s, P s.
Proof.
  intros Hplain Hcut s.
  enough (Q : forall a, Forall (fun x => x <> c) a -> P (a ++ s)) by exact (Q [] (Forall_nil _)).
  induction s as [|x s IH]; intros a Ha.
  - rewrite app_nil_r. now apply Hplain.
  - destruct (N.eq_dec x c) as [->|Hx].
    + apply Hcut; [exact Ha|]. exact (IH [] (Forall_nil _)).
    + replace (a ++ x :: s) with ((a ++ [x]) ++ s) by now rewrite <- app_assoc.
      apply IH. apply Forall_app. split; [exact Ha | now constructor].
Qed.

Section Tokens.
Context (rt : runtime).

Lemma parse_part_empty : parse_part rt [] = [].
Proof. reflexivity. Qed.

Lemma parts_are_tokens (s : Str.str) :
  Forall (fun c => Str.isspace c = true -> c = 32%N) s ->
  flat_map (parse_part rt) (Str.split s [32%N])
  = flat_map (parse_part rt) (Str.split_ws s).
Proof.
  unfold Str.split. pattern s. apply (cut_ind 32%N); clear s.
  - intros a Ha H. rewrite split_from_plain by exact Ha. cbn [rev app flat_map].
    rewrite app_nil_r. rewrite split_ws_spaceless.
    + destruct a; [reflexivity | cbn [flat_map]; now rewrite app_nil_r].
    + unfold spaceless. rewrite Forall_forall in *. intros c Hc.
      destruct (Str.isspace c) eqn:E; [|reflexivity].
      exfalso. apply (Ha c Hc). now apply H.
  - intros a rest Ha IH H. apply Forall_app in H as [H1 H2]. inversion H2 as [|? ? _ H3]; subst.
    rewrite split_from_cut by exact Ha. cbn [rev app flat_map]. rewrite (IH H3).
    unfold Str.split_ws at 2. rewrite split_ws_from_cut by reflexivity.
    rewrite flat_map_app. f_equal.
    change (Str.split_ws_from [] a) with (Str.split_ws a). rewrite split_ws_spaceless.
    + destruct a; [reflexivity | cbn [flat_map]; now rewrite app_nil_r].
    + unfold spaceless. rewrite Forall_forall in *. intros c Hc.
      destruct (Str.isspace c) eqn:E; [|reflexivity].
      exfalso. apply (Ha c Hc). now apply H1.
Qed.

Lemma parse_line_tokens (line : Str.str) :
  Forall (fun c => Str.isspace c = true -> c = 9%N \/ c = 32%N) line ->
  parse_line rt line = flat_map (parse_part rt) (Str.split_ws line).
Proof.
  intros H. unfold parse_line. rewrite <- (split_ws_strip line).
  apply (strip_keeps _ line) in H. set (l := Str.strip line) in *.
  destruct l as [|x l'] eqn:E; [reflexivity|]. rewrite <- E in *. 
  replace (negb (Str.truthy l)) with false by (rewrite E; reflexivity).
  rewrite parts_are_tokens.
  - now rewrite split_ws_replace_single by reflexivity.
  - rewrite replace_single. apply Forall_map. revert H. apply Forall_impl.
    intros c Hc. destruct (N.eqb_spec 9 c) as [<-|N9]; [reflexivity|].
    intros S. destruct (Hc S) as [->| ->]; [congruence | reflexivity].
Qed.

Lemma lines_are_tokens (s : Str.str) :
  Forall (fun c => Str.isspace c = true -> c = 10%N \/ c = 9%N \/ c = 32%N) s ->
  flat_map (parse_line rt) (Str.split s [10%N])
  = flat_map (parse_part rt) (Str.split_ws s).
Proof.
  assert (L : forall a, Forall (fun x => x <> 10%N) a ->
              Forall (fun c => Str.isspace c = true -> c = 10%N \/ c = 9%N \/ c = 32%N) a ->
              parse_line rt a = flat_map (parse_part rt) (Str.split_ws a)).
  { intros a Ha H. apply parse_line_tokens. rewrite Forall_forall in *.
    intros c Hc S. destruct (H c Hc S) as [E|E]; [|exact E]. now destruct (Ha c Hc). }
  unfold Str.split. pattern s. apply (cut_ind 10%N); clear s.
  - intros a Ha H. rewrite split_from_plain by exact Ha. cbn [rev app flat_map].
    rewrite app_nil_r. now apply L.
  - intros a rest Ha IH H. apply Forall_app in H as [H1 H2]. inversion H2 as [|? ? _ H3]; subst.
    rewrite split_from_cut by exact Ha. cbn [rev app flat_map]. rewrite (IH H3).
    unfold Str.split_ws at 2. rewrite split_ws_from_cut by reflexivity.
    rewrite flat_map_app. f_equal. now apply L.
Qed.

Lemma common_space_chars (s : Str.str) :
  common_space s = true ->
  Forall (fun c => Str.isspace c = true -> c = 10%N \/ c = 9%N \/ c = 32%N \/ c = 13%N) s.
Proof.
  unfold common_space. rewrite forallb_forall, Forall_forall. intros H c Hc S.
  specialize (H c Hc). rewrite S in H. cbn [negb orb existsb] in H.
  repeat (apply orb_true_iff in H as [H|H]; [apply N.eqb_eq in H; auto|]). discriminate.
Qed.

(** X17. The coordinate text is read token by token: the vertices are those of
    its white-space separated tokens, in their order, when its white space
    is made of tabs, line feeds, carriage returns and spaces. *)
Theorem coordinates_read_token_by_token (text : Str.str) :
  common_space text = true ->
  parse_coordinates rt text = flat_map (parse_part rt) (Str.split_ws text).
Proof.
  intros H. apply common_space_chars in H. unfold parse_coordinates.
  destruct text as [|x t] eqn:E; [reflexivity|]. rewrite <- E in *. 
  replace (negb (Str.truthy text)) with false by (rewrite E; reflexivity).
  rewrite lines_are_tokens.
  - rewrite split_ws_replace_single by reflexivity.
    now rewrite split_ws_replace_crlf, split_ws_strip.
  - rewrite replace_single. apply Forall_map.
    apply (strip_keeps _ text) in H.
    apply (replace_from_keeps _ [13; 10]%N [10%N] _ 0%nat) in H.
    + revert H. unfold Str.replace. apply Forall_impl.
      intros c Hc. destruct (N.eqb_spec 13 c) as [<-|N13]; [now left|].
      intros S. destruct (Hc S) as [->|[->|[->| ->]]]; auto. congruence.
    + constructor; [now left | constructor].
Qed.

End Tokens.

Lemma coordinates_read_token_by_token_witness :
  parse_coordinates Sample.rt (Str.lit " 0,0,0" ++ [13; 10; 9]%N ++ Str.lit "1,0,0  1,1,0 ")
  = [(Sample.zero, Sample.zero); (Sample.one, Sample.zero); (Sample.one, Sample.one)].
Proof.
  rewrite coordinates_read_token_by_token; vm_compute; reflexivity.
Defined.
